(** * Jamo front-end library: store, composition engine and router

    A shallow embedding of [src/Store.js] and [src/Component.js] (which also
    holds the [App] router), with the properties of the design document
    stated over it.

    JavaScript objects used as dictionaries are finite maps ([gmap]); an
    object that is shared by reference lives in a heap and is named by a
    location.  Method bodies are written in a state-and-exception monad so
    that a [throw] in the middle of a method leaves exactly the writes that
    were made before it.

    Plain objects inherit the members of [Object.prototype]: the lookups
    of the store and of the component directory find them under a name
    that the object does not own.  An assignment leaves an own property
    (the accessor [__proto__] is given no meaning of its own), and of the
    inherited built-ins only [toString] is given a result when it is
    called. *)

From Stdlib Require Import ZArith.
From stdpp Require Import gmap strings list.

Local Open Scope string_scope.
Local Open Scope list_scope.

(** ** Method bodies: state passing with exceptions *)

Inductive completion (E A : Type) : Type :=
| Returns (a : A)
| Throws (e : E).
Arguments Returns {E A} a.
Arguments Throws {E A} e.

Section JsMonad.
Context {W E : Type}.

Definition Js (A : Type) : Type := W -> W * completion E A.

Definition ret {A} (a : A) : Js A := fun w => (w, Returns a).

Definition throw {A} (e : E) : Js A := fun w => (w, Throws e).

Definition bind {A B} (m : Js A) (k : A -> Js B) : Js B :=
  fun w =>
    match m w with
    | (w', Returns a) => k a w'
    | (w', Throws e) => (w', Throws e)
    end.

Definition get : Js W := fun w => (w, Returns w).

Definition modify (f : W -> W) : Js unit := fun w => (f w, Returns tt).

(** [try { m } catch (error) { h error }] *)
Definition try_catch {A} (m : Js A) (h : E -> Js A) : Js A :=
  fun w =>
    match m w with
    | (w', Returns a) => (w', Returns a)
    | (w', Throws e) => h e w'
    end.

(** [for (const x of xs) { body x }] *)
Fixpoint for_of {A} (xs : list A) (body : A -> Js unit) : Js unit :=
  match xs with
  | [] => ret tt
  | x :: rest => bind (body x) (fun _ => for_of rest body)
  end.

Section Collect.
Context {A B : Type} (f : A -> Js B).

(** Calls [f] on every element in order and collects the results. *)
Fixpoint map_js (xs : list A) : Js (list B) :=
  match xs with
  | [] => ret []
  | x :: rest =>
      bind (f x) (fun y => bind (map_js rest) (fun ys => ret (y :: ys)))
  end.
End Collect.
End JsMonad.

Arguments Js W E A : clear implicits.

Notation "'let*' x ':=' m 'in' k" := (bind m (fun x => k))
  (at level 10, x pattern, m at level 100, k at level 200, only parsing).
Notation "m '>>' k" := (bind m (fun _ => k))
  (at level 90, right associativity, only parsing).

(** ** Plain objects

    An object literal inherits the members of [Object.prototype]: a name
    the object does not own is still found when it is one of these. *)
Definition prototype_members : list string :=
  ["constructor"; "__defineGetter__"; "__defineSetter__"; "hasOwnProperty";
   "__lookupGetter__"; "__lookupSetter__"; "isPrototypeOf";
   "propertyIsEnumerable"; "toString"; "valueOf"; "__proto__";
   "toLocaleString"].

Definition inherited (k : string) : bool :=
  bool_decide (k ∈ prototype_members).

(** What [o[k]] finds in a plain object [o]. *)
Inductive member (A : Type) : Type :=
| Own (a : A)
| Inherited
| Absent.
Arguments Own {A} a.
Arguments Inherited {A}.
Arguments Absent {A}.

Definition lookup_member {A} (o : gmap string A) (k : string) : member A :=
  match o !! k with
  | Some a => Own a
  | None => if inherited k then Inherited else Absent
  end.

(** How [+] renders an inherited member: a built-in function prints as its
    source text, which names the function and hides the body (in the form
    V8 gives it), and the prototype object prints as any plain object. *)
Definition member_string (k : string) : string :=
  if String.eqb k "__proto__" then "[object Object]"
  else String.append "function "
         (String.append (if String.eqb k "constructor" then "Object" else k)
            "() { [native code] }").

(** ** The state store ([src/Store.js]) *)

Module Store.

(** A heap location names one JavaScript object. *)
Definition loc := positive.

Inductive value : Type :=
| VUndefined
| VNull
| VBool (b : bool)
| VNum (n : Z)
| VStr (s : string)
| VRef (l : loc)
| VMember (name : string).  (* the member of [Object.prototype] of that name *)

Record action : Type := Action {
  slice : string;
  type : string;
  payload : value
}.

Abbreviation reducer := (value -> action -> value).

(** A listener is a callback; [!==] compares callbacks by identity. *)
Definition listener := nat.

(** What a dispatch leaves behind for an observer: the diagnostic line of
    [console.log] and the calls made to listeners, in the order made. *)
Inductive event : Type :=
| Log (slice type : string) (v : value)
| Call (l : listener).

Inductive error : Type :=
| ConfigurationMissing   (* "Initial state and reducers must be provided." *)
| NotConfigured          (* "Store is not configured. Call configure() ..." *)
| ReducerNotFound (slice : string)  (* "Reducer for slice ... not found." *)
| TypeError               (* property access on null or undefined *)
| NotAFunction            (* "... is not a function" *)
| Unmodelled.             (* a built-in whose result the model leaves open *)

Abbreviation object := (gmap string value).

(** The fields of the singleton [store], the heap its [state] field points
    into, and the observable trace. *)
Record world : Type := World {
  heap : gmap loc object;
  state : option loc;
  reducers : option (gmap string reducer);
  listeners : gmap string (list listener);
  isConfigured : bool;
  trace : list event
}.

(** [new Store()] over a given heap. *)
Definition constructor (h : gmap loc object) : world :=
  World h None None ∅ false [].

Definition set_heap (h : gmap loc object) (w : world) : world :=
  World h (state w) (reducers w) (listeners w) (isConfigured w) (trace w).
Definition set_state (s : option loc) (w : world) : world :=
  World (heap w) s (reducers w) (listeners w) (isConfigured w) (trace w).
Definition set_reducers (r : option (gmap string reducer)) (w : world) : world :=
  World (heap w) (state w) r (listeners w) (isConfigured w) (trace w).
Definition set_listeners (ls : gmap string (list listener)) (w : world) : world :=
  World (heap w) (state w) (reducers w) ls (isConfigured w) (trace w).
Definition set_isConfigured (b : bool) (w : world) : world :=
  World (heap w) (state w) (reducers w) (listeners w) b (trace w).
Definition emit (e : event) (w : world) : world :=
  World (heap w) (state w) (reducers w) (listeners w) (isConfigured w)
        (trace w ++ [e]).

Abbreviation M := (Js world error).

(** [o[k]]: a name the object does not own reads as the inherited member,
    and as [undefined] when nothing is inherited under it. *)
Definition prop (o : object) (k : string) : value :=
  match lookup_member o k with
  | Own v => v
  | Inherited => VMember k
  | Absent => VUndefined
  end.

(** [ref[k]] for a reference held in a field that may still be [null]; a
    location at which the heap holds nothing reads as an empty object. *)
Definition read_prop (ref : option loc) (k : string) : M value :=
  fun w =>
    match ref with
    | None => (w, Throws TypeError)
    | Some l => (w, Returns (prop (default ∅ (heap w !! l)) k))
    end.

(** [ref[k] = v]: the object owns [k] afterwards. *)
Definition write_prop (ref : option loc) (k : string) (v : value) : M unit :=
  fun w =>
    match ref with
    | None => (w, Throws TypeError)
    | Some l =>
        (set_heap (<[l := <[k := v]> (default ∅ (heap w !! l))]> (heap w)) w,
         Returns tt)
    end.

(** A string argument used as a condition: [undefined] and the empty
    string are falsy. *)
Definition truthy (s : option string) : bool :=
  match s with
  | Some s => negb (String.eqb s "")
  | None => false
  end.

Definition checkConfigured : M unit :=
  let* w := get in
  if isConfigured w then ret tt else throw NotConfigured.

(** [configure(c)] for a configuration object [c]: a field of [c] that is
    missing, [undefined] or [null] is [None], and a field that is there
    holds an object. *)
Definition configure (initialState : option loc)
    (rs : option (gmap string reducer)) : M unit :=
  match initialState, rs with
  | Some l, Some r =>
      modify (set_state (Some l)) >>
      modify (set_reducers (Some r)) >>
      modify (set_isConfigured true)
  | _, _ => throw ConfigurationMissing
  end.

Definition getState (sl : option string) : M value :=
  checkConfigured >>
  let* w := get in
  if truthy sl then read_prop (state w) (default "" sl)
  else ret (from_option VRef VNull (state w)).

(** Calling a listener is recorded on the trace.  What the callback does
    is not part of the store; a callback that calls back into the store is
    outside the model. *)
Definition call_listener (l : listener) : M unit := modify (emit (Call l)).

(** A member of [Object.prototype] found where a reducer is looked up and
    called as one, with the reducers object as [this].  [toString] ignores
    its arguments and answers for a plain object; [__proto__] is the
    prototype itself, which cannot be called.  What the other built-ins
    return is left open. *)
Definition inherited_reducer (k : string) : M reducer :=
  if String.eqb k "toString" then ret (fun _ _ => VStr "[object Object]")
  else if String.eqb k "__proto__" then throw NotAFunction
  else throw Unmodelled.

Definition dispatch (a : action) : M unit :=
  checkConfigured >>
  let* w := get in
  match reducers w with
  | None => throw TypeError
  | Some rs =>
      match lookup_member rs (slice a) with
      | Absent => throw (ReducerNotFound (slice a))
      | found =>
          let* r := match found with
                    | Own r => ret r
                    | _ => inherited_reducer (slice a)
                    end in
          let* cur := read_prop (state w) (slice a) in
          write_prop (state w) (slice a) (r cur a) >>
          let* v := read_prop (state w) (slice a) in
          modify (emit (Log (slice a) (type a) v)) >>
          let* w' := get in
          match lookup_member (listeners w') (slice a) with
          | Own ls => for_of ls call_listener
          | Inherited => throw NotAFunction   (* no [forEach] on the member *)
          | Absent => ret tt
          end
      end
  end.

(** The closure returned by [subscribe] captures its two arguments. *)
Record unsubscriber : Type := Unsubscriber {
  u_slice : string;
  u_listener : listener
}.

Definition subscribe (sl : string) (l : listener) : M unsubscriber :=
  checkConfigured >>
  let* w := get in
  (match lookup_member (listeners w) sl with
   | Absent => modify (set_listeners (<[sl := []]> (listeners w)))
   | _ => ret tt
   end) >>
  let* w := get in
  match lookup_member (listeners w) sl with
  | Own ls =>
      modify (set_listeners (<[sl := ls ++ [l]]> (listeners w))) >>
      ret (Unsubscriber sl l)
  | Inherited => throw NotAFunction   (* no [push] on the member *)
  | Absent => throw TypeError
  end.

(** Calling the closure returned by [subscribe]. *)
Definition unsubscribe (u : unsubscriber) : M unit :=
  let* w := get in
  match lookup_member (listeners w) (u_slice u) with
  | Own ls =>
      modify (set_listeners
        (<[u_slice u := filter (fun l => l ≠ u_listener u) ls]> (listeners w)))
  | Inherited => throw NotAFunction   (* no [filter] on the member *)
  | Absent => throw TypeError
  end.

(** Dispatching a sequence of actions one after the other. *)
Definition dispatch_all (acts : list action) : M unit := for_of acts dispatch.

(** Subscribing a sequence of listeners to one slice, keeping the
    returned closures. *)
Definition subscribe_all (sl : string) (fs : list listener) : M (list unsubscriber) :=
  map_js (subscribe sl) fs.

(** The listeners called in a stretch of trace. *)
Definition calls (t : list event) : list listener :=
  omap (fun e => match e with Call l => Some l | Log _ _ _ => None end) t.

(** The events a computation adds to the trace when run from [w]. *)
Definition emitted {A} (m : M A) (w : world) : list event :=
  drop (length (trace w)) (trace (fst (m w))).

(** The listeners that one dispatch of [a] from [w] calls, in call order. *)
Definition notified (a : action) (w : world) : list listener :=
  calls (emitted (dispatch a) w).

(** The listeners a dispatch of [a] calls after [fs] were subscribed to
    slice [sl] and the closure returned for the [k]-th of them was
    called. *)
Definition notified_after_unsubscribe (w : world) (a : action)
    (sl : string) (fs : list listener) (k : nat) : option (list listener) :=
  match subscribe_all sl fs w with
  | (w1, Returns hs) =>
      match hs !! k with
      | Some h =>
          match unsubscribe h w1 with
          | (w2, Returns _) => Some (notified a w2)
          | (_, Throws _) => None
          end
      | None => None
      end
  | (_, Throws _) => None
  end.

(** A store that went through a successful [configure]. *)
Record configured (w : world) (l : loc) (rs : gmap string reducer) : Prop := {
  cfg_flag : isConfigured w = true;
  cfg_state : state w = Some l;
  cfg_reducers : reducers w = Some rs
}.

(** The value of slice [k] as [getState(k)] reads it. *)
Definition slice_value (w : world) (k : string) : value :=
  match state w with
  | Some l => prop (default ∅ (heap w !! l)) k
  | None => VUndefined
  end.

(** The world a successful dispatch of [a] with reducer [r] leads to. *)
Definition dispatched (r : reducer) (a : action) (l : loc) (w : world) : world :=
  let v := r (slice_value w (slice a)) a in
  World (<[l := <[slice a := v]> (default ∅ (heap w !! l))]> (heap w))
        (state w) (reducers w) (listeners w) (isConfigured w)
        (trace w ++ Log (slice a) (type a) v
           :: map Call (default [] (listeners w !! slice a))).

(** How a dispatch ends once the new value is written and logged: the
    listeners are called, unless the name of the slice finds an inherited
    member where their list is looked up. *)
Definition notification (w : world) (sl : string) : completion error unit :=
  match lookup_member (listeners w) sl with
  | Inherited => Throws NotAFunction
  | _ => Returns tt
  end.

(** The fold property of slice [S]: configuring with the state object at
    [l] and reducers [rs], dispatching [acts] and reading [getState(S)]
    yields the left fold of [r] over [acts] from the initial value of
    [S]. *)
Definition fold_property (w : world) (l : loc) (o : object)
    (rs : gmap string reducer) (S : string) (r : reducer)
    (acts : list action) : Prop :=
  snd ((configure (Some l) (Some rs) >> dispatch_all acts >> getState (Some S)) w)
  = Returns (fold_left r acts (prop o S)).

(** The design document's counter: one slice holding a number, with a
    reducer that increments on ["INC"] and is the identity otherwise. *)
Definition inc : reducer :=
  fun s a =>
    if String.eqb (type a) "INC"
    then match s with VNum n => VNum (n + 1) | _ => s end
    else s.

Definition INC (sl : string) : action := Action sl "INC" VUndefined.

Definition counter_heap : gmap loc object := {[ 1%positive := {[ "count" := VNum 0 ]} ]}.
Definition counter_reducers : gmap string reducer := {[ "count" := inc ]}.

(** The counter store right after [configure]. *)
Definition counter_store : world :=
  fst (configure (Some 1%positive) (Some counter_reducers) (constructor counter_heap)).

(** A store whose only slice is named by the empty string. *)
Definition blank_heap : gmap loc object := {[ 1%positive := {[ "" := VNum 0 ]} ]}.
Definition blank_reducers : gmap string reducer := {[ "" := inc ]}.

(** *** A client making calls one after the other *)

(** One call on the store.  [Unsubscribe] calls a closure that [subscribe]
    returned earlier. *)
Inductive call : Type :=
| Configure (initialState : option loc) (rs : option (gmap string reducer))
| GetState (sl : option string)
| Dispatch (a : action)
| Subscribe (sl : string) (l : listener)
| Unsubscribe (u : unsubscriber).

(** The store after one call, whether the call returned or threw. *)
Definition perform (c : call) (w : world) : world :=
  match c with
  | Configure initialState rs => fst (configure initialState rs w)
  | GetState sl => fst (getState sl w)
  | Dispatch a => fst (dispatch a w)
  | Subscribe sl l => fst (subscribe sl l w)
  | Unsubscribe u => fst (unsubscribe u w)
  end.

(** The store after a sequence of calls by a client that goes on after an
    exception. *)
Definition perform_all (cs : list call) (w : world) : world :=
  fold_left (fun w c => perform c w) cs w.

(** Calls that only read or manage subscriptions. *)
Definition is_quiet (c : call) : bool :=
  match c with
  | GetState _ | Subscribe _ _ | Unsubscribe _ => true
  | Configure _ _ | Dispatch _ => false
  end.

(** The listeners registered on a slice; none when the slice has no list
    yet. *)
Definition listeners_of (w : world) (sl : string) : list listener :=
  default [] (listeners w !! sl).

(** Subscribing, cancelling, subscribing the same callback again and
    calling the first closure once more. *)
Definition resubscribe_then_stale_cancel (sl : string) (f : listener) : M unit :=
  let* u := subscribe sl f in
  unsubscribe u >>
  let* _ := subscribe sl f in
  unsubscribe u.

End Store.

(** ** The composition engine and the router ([src/Component.js]) *)

Module Component.

(** The part of the DOM the engine walks: text nodes and elements with
    their attributes and children. *)
#[local] Unset Elimination Schemes.
Inductive node : Type :=
| Text (s : string)
| Element (tag : string) (attrs : list (string * string)) (children : list node).
#[local] Set Elimination Schemes.

(** [element.getAttribute(name)] *)
Fixpoint attribute (name : string) (attrs : list (string * string)) : option string :=
  match attrs with
  | [] => None
  | (k, v) :: rest => if String.eqb k name then Some v else attribute name rest
  end.

Fixpoint has_id (id : string) (n : node) : bool :=
  match n with
  | Text _ => false
  | Element _ attrs kids =>
      match attribute "id" attrs with
      | Some i => String.eqb i id
      | None => false
      end || existsb (has_id id) kids
  end.

Inductive error : Type :=
| NetworkError               (* a rejected [fetch], [json] or [import] *)
| TypeError                  (* member access on [null], [undefined] or a text node *)
| ConfigurationLoadError     (* "Error loading configuration." *)
| ConfigurationNotFound (name : string)
                             (* "Component configuration not found for ..." *)
| FetchError                 (* "Error fetching template or styles." *)
| RenderError                (* "Error fetching, parsing, or rendering template or styles." *)
| OutOfFuel.                 (* the recursion bound of the model was reached *)

(** What a run leaves behind for an observer, in order: requests issued,
    lines written by [console.error], hooks run, promises dropped with a
    rejection. *)
Inductive event : Type :=
| Fetch (path : string)
| Import (path : string)
| ErrorLogged (message : string) (cause : error)
| InvalidPath (hash : string)
| Initialize (name : string)
| UnhandledRejection (cause : error).

(** The collaborators of the engine: the network, the module loader and
    the HTML parser of the browser. *)
Record environment : Type := Environment {
  (** The [componentDirectory] of [./JamoComponentsConfig.json], [None]
      when fetching or decoding it fails. *)
  config_file : option (gmap string string);
  (** The body text [fetch(path)] resolves to, [None] when it rejects. *)
  fetch_text : string -> option string;
  (** The name of the class a module exports by default, [None] when
      [import(path)] rejects. *)
  import_class : string -> option string;
  (** The child nodes of a [div] whose [innerHTML] was set to the
      trimmed text. *)
  parse : string -> list node
}.

(** The static [Component.config], the document (style elements of the
    head, the root element and what is mounted in it), the location, the
    route table of the [App], and the trace. *)
Record world : Type := World {
  config : option (gmap string string);
  head : list (string * string);
  rootElementId : string;
  mounted : list node;
  hash : string;
  routes : gmap string string;
  log : list event
}.

Definition set_config (c : option (gmap string string)) (w : world) : world :=
  World c (head w) (rootElementId w) (mounted w) (hash w) (routes w) (log w).
Definition set_head (h : list (string * string)) (w : world) : world :=
  World (config w) h (rootElementId w) (mounted w) (hash w) (routes w) (log w).
Definition set_mounted (m : list node) (w : world) : world :=
  World (config w) (head w) (rootElementId w) m (hash w) (routes w) (log w).
Definition set_hash (h : string) (w : world) : world :=
  World (config w) (head w) (rootElementId w) (mounted w) h (routes w) (log w).
Definition set_routes (r : gmap string string) (w : world) : world :=
  World (config w) (head w) (rootElementId w) (mounted w) (hash w) r (log w).
Definition emit (e : event) (w : world) : world :=
  World (config w) (head w) (rootElementId w) (mounted w) (hash w) (routes w)
        (log w ++ [e]).

Abbreviation M := (Js world error).

(** [document.getElementById(id)], as a truth value. *)
Definition getElementById (w : world) (id : string) : bool :=
  existsb (fun s => String.eqb (fst s) id) (head w)
  || String.eqb (rootElementId w) id
  || existsb (has_id id) (mounted w).

(** How [+] renders what the component directory holds under the name
    [k]. *)
Definition js_string (k : string) (found : member string) : string :=
  match found with
  | Own s => s
  | Inherited => member_string k
  | Absent => "undefined"
  end.

(** [!x] for what a directory lookup found: [undefined] and the empty
    string are falsy, an inherited member is not. *)
Definition falsy (found : member string) : bool :=
  match found with
  | Own s => String.eqb s ""
  | Inherited => false
  | Absent => true
  end.

(** The names under which the engine looks for child components: the
    [data-component] values of the elements in a list of nodes, in
    document order, as [querySelectorAll] lists them; the loop skips the
    empty ones. *)
Fixpoint placeholders (n : node) : list string :=
  match n with
  | Text _ => []
  | Element _ attrs kids =>
      match attribute "data-component" attrs with
      | Some name => if String.eqb name "" then [] else [name]
      | None => []
      end ++ concat (map placeholders kids)
  end.

Section Engine.
Variable env : environment.

Definition loadConfig : M unit :=
  let* w := get in
  if config w is Some _ then ret tt
  else
    try_catch
      (modify (emit (Fetch "./JamoComponentsConfig.json")) >>
       match config_file env with
       | Some c => modify (set_config (Some c))
       | None => throw NetworkError
       end)
      (fun e =>
         modify (emit (ErrorLogged "Error loading configuration:" e)) >>
         throw ConfigurationLoadError).

(** Returns the template path and the styles path. *)
Definition setPaths (name : string) : M (string * string) :=
  let* w := get in
  (if config w is Some _ then ret tt else loadConfig) >>
  let* w := get in
  match config w with
  | None => throw TypeError
  | Some directory =>
      let directoryPath := lookup_member directory name in
      if falsy directoryPath then throw (ConfigurationNotFound name)
      else ret (String.append (js_string name directoryPath)
                  (String.append name ".html"),
                String.append (js_string name directoryPath)
                  (String.append name ".css"))
  end.

(** Both requests are issued before either is awaited. *)
Definition fetchTemplateAndStyles (templatePath stylesPath : string)
    : M (string * string) :=
  try_catch
    (modify (emit (Fetch templatePath)) >>
     modify (emit (Fetch (if String.eqb stylesPath "" then "" else stylesPath))) >>
     match fetch_text env templatePath, fetch_text env stylesPath with
     | Some template, Some styles => ret (template, styles)
     | _, _ => throw NetworkError
     end)
    (fun e =>
       modify (emit (ErrorLogged "Error fetching template or styles:" e)) >>
       throw FetchError).

(** [tempContainer.firstChild] *)
Definition parseHTML (htmlString : string) : option node :=
  List.head (parse env htmlString).

Definition applyStyles (name cssString : string) : M unit :=
  let styleId := String.append name "-styles" in
  let* w := get in
  if getElementById w styleId then ret tt
  else modify (set_head (head w ++ [(styleId, cssString)])).

Section Nested.
(** [render] of a fresh instance of the class with the given name. *)
Variable render_instance : string -> M node.

(** One turn of the loop body for a placeholder named
    [componentName]: look up the directory, import the module,
    construct and render. *)
Definition renderPlaceholder (componentName : string) : M node :=
  let* w := get in
  match config w with
  | None => throw TypeError
  | Some directory =>
      let directoryPath := lookup_member directory componentName in
      let path :=
        String.append "/"
          (String.append (js_string componentName directoryPath)
             (String.append componentName ".js")) in
      modify (emit (Import path)) >>
      match import_class env path with
      | Some class => render_instance class
      | None => throw NetworkError
      end
  end.

(** The effects of the loop as the source writes it, over the names
    in the static node list: every turn awaits the import and the
    render of the child before the next turn starts. *)
Definition placeholderLoop (names : list string) : M unit :=
  for_of names (fun componentName => renderPlaceholder componentName >> ret tt).

(** The loop over the static node list, followed along the tree: the
    nodes are visited in document order; a placeholder with a
    non-empty name is replaced by the rendered child, and the
    elements below it, which left the tree with it, are still
    visited. *)
Fixpoint resolve (n : node) : M node :=
  match n with
  | Text s => ret (Text s)
  | Element tag attrs kids =>
      match attribute "data-component" attrs with
      | Some componentName =>
          if String.eqb componentName ""
          then
            let* kids' := map_js resolve kids in
            ret (Element tag attrs kids')
          else
            let* nestedElement := renderPlaceholder componentName in
            map_js resolve kids >>
            ret nestedElement
      | None =>
          let* kids' := map_js resolve kids in
          ret (Element tag attrs kids')
      end
  end.

Definition renderNestedComponents (element : option node) : M node :=
  match element with
  | Some (Element tag attrs kids) =>
      let* kids' := map_js resolve kids in
      ret (Element tag attrs kids')
  | Some (Text _) | None => throw TypeError
  end.

Definition setup (name : string) : M node :=
  try_catch
    (let* (templatePath, stylesPath) := setPaths name in
     let* (template, styles) :=
       fetchTemplateAndStyles templatePath stylesPath in
     let element := parseHTML template in
     applyStyles name styles >>
     renderNestedComponents element)
    (fun e =>
       match e with
       | OutOfFuel => throw OutOfFuel
       | _ =>
           modify (emit (ErrorLogged
             "Error fetching, parsing, or rendering template or styles:" e)) >>
           throw RenderError
       end).
End Nested.

(** [render] of an instance of the class [name]; the bound limits the
    nesting depth of components. *)
Fixpoint render (fuel : nat) (name : string) : M node :=
  match fuel with
  | 0 => throw OutOfFuel
  | S fuel =>
      let* element := setup (render fuel) name in
      modify (emit (Initialize name)) >>
      ret element
  end.

(** *** The router *)

Definition addRoute (path component : string) : M unit :=
  let* w := get in
  modify (set_routes (<[path := component]> (routes w))).

(** Runs the whole asynchronous body. *)
Definition loadPage (fuel : nat) (component : string) : M unit :=
  modify (set_mounted []) >>
  let* componentElement := render fuel component in
  let* w := get in
  modify (set_mounted (mounted w ++ [componentElement])).

(** The promise of [loadPage] is not awaited: a rejection does not reach
    the caller.  The key looked up is [location.hash], which is empty or
    starts with [#]: it is never the name of an inherited member. *)
Definition handleRouting (fuel : nat) : M unit :=
  let* w := get in
  match routes w !! hash w with
  | None => modify (emit (InvalidPath (hash w)))
  | Some page =>
      try_catch (loadPage fuel page)
        (fun e =>
           match e with
           | OutOfFuel => throw OutOfFuel
           | _ => modify (emit (UnhandledRejection e))
           end)
  end.

(** [location.hash] after [history.pushState(null, null, "#" + pageHash)],
    for a fragment that the URL keeps as it is written. *)
Definition pushed_hash (pageHash : string) : string :=
  if String.eqb pageHash "" then "" else String.append "#" pageHash.

Definition goToPage (fuel : nat) (pageHash : string) : M unit :=
  modify (set_hash (pushed_hash pageHash)) >>
  handleRouting fuel.
End Engine.

(** The events a computation adds to the log when run from [w]. *)
Definition emitted {A} (m : M A) (w : world) : list event :=
  drop (length (log w)) (log (fst (m w))).

(** What a computation does apart from the value it returns: the world it
    leaves and the error it throws, if any. *)
Definition effect {A} (m : M A) (w : world) : world * option error :=
  match m w with
  | (w', Returns _) => (w', None)
  | (w', Throws e) => (w', Some e)
  end.

Definition same_effect {A B} (m : M A) (m' : M B) : Prop :=
  forall w, effect m w = effect m' w.

(** The number of style elements in the head that carry the id [id]. *)
Definition registrations (w : world) (id : string) : nat :=
  length (filter (fun s => fst s = id) (head w)).


(** The world only ever moves along this relation: the log and the head
    grow at the end, an id that is registered stays registered and none is
    registered a second time, a loaded configuration is kept, and the
    router's fields and the mounted content are untouched by the
    engine. *)
Record evolves (w w' : world) : Prop := {
  ev_log : log w `prefix_of` log w';
  ev_head : head w `prefix_of` head w';
  ev_once : forall id, registrations w' id <= Nat.max 1 (registrations w id);
  ev_config : forall c, config w = Some c -> config w' = Some c;
  ev_root : rootElementId w' = rootElementId w;
  ev_mounted : mounted w' = mounted w;
  ev_hash : hash w' = hash w;
  ev_routes : routes w' = routes w
}.

(** A computation whose every run moves the world along [evolves]. *)
Definition steps {A} (m : M A) : Prop := forall w, evolves w (fst (m w)).

(** The directory the engine works with from [w] on: the cached one, or
    the one the configuration file holds. *)
Definition directory (env : environment) (w : world) : option (gmap string string) :=
  match config w with
  | Some d => Some d
  | None => config_file env
  end.

(** The world once the configuration is in the cache. *)
Definition loaded (env : environment) (w : world) : world :=
  match config w with
  | Some _ => w
  | None => set_config (config_file env) (emit (Fetch "./JamoComponentsConfig.json") w)
  end.

(** The world once the two requests for a component were issued. *)
Definition fetched (directoryPath name : string) (w : world) : world :=
  emit (Fetch (String.append directoryPath (String.append name ".css")))
    (emit (Fetch (String.append directoryPath (String.append name ".html"))) w).

(** The world once the styles of a component type were applied. *)
Definition styled (name css : string) (w : world) : world :=
  if getElementById w (String.append name "-styles") then w
  else set_head (head w ++ [(String.append name "-styles", css)]) w.

(** A node without placeholders below or at it. *)
Definition plain (n : node) : Prop := placeholders n = [].



(** The world after the render of a component without placeholders. *)
Definition rendered_leaf (d name css : string) (w : world) : world :=
  emit (Initialize name) (styled name css (fetched d name w)).



(** *** A small site *)

Definition site_directory : gmap string string :=
  {[ "Parent" := "components/Parent/"; "Child" := "components/Child/" ]}.

Definition parent_template : string :=
  "<div><span data-component='Child'></span><i data-component='Child'></i></div>".

Definition site_fetch (path : string) : option string :=
  if String.eqb path "components/Parent/Parent.html" then Some parent_template
  else if String.eqb path "components/Parent/Parent.css" then Some ".parent{}"
  else if String.eqb path "components/Child/Child.html" then Some "<p>hi</p>"
  else if String.eqb path "components/Child/Child.css" then Some ".child{}"
  else Some "Not Found".

Definition site_import (path : string) : option string :=
  if String.eqb path "/components/Parent/Parent.js" then Some "Parent"
  else if String.eqb path "/components/Child/Child.js" then Some "Child"
  else None.

Definition site_parse (text : string) : list node :=
  if String.eqb text parent_template
  then [Element "div" []
          [Element "span" [("data-component", "Child")] [];
           Element "i" [("data-component", "Child")] []]]
  else if String.eqb text "<p>hi</p>" then [Element "p" [] [Text "hi"]]
  else [Text text].

Definition site : environment :=
  Environment (Some site_directory) site_fetch site_import site_parse.

(** The same site with the entry of [Child] missing from the directory. *)
Definition site_without_child : environment :=
  Environment (Some {[ "Parent" := "components/Parent/" ]})
              site_fetch site_import site_parse.

(** A page on which nothing was rendered yet and one route is known. *)
Definition fresh_page : world :=
  World None [] "root" [Element "h1" [] [Text "welcome"]] ""
        {[ "#/x" := "Parent" ]} [].

(** *** The application object and the configuration request *)

(** [new App(id)] with the id of the root element: the route table starts
    empty and the current location is routed at once, before the caller
    can add a route; the handler registered for [popstate] is
    [handleRouting] itself. *)
Definition new_App (env : environment) (fuel : nat) : M unit :=
  modify (set_routes ∅) >>
  handleRouting env fuel.

(** Registering two components under one key, one after the other. *)
Definition addRoute_twice (path first second : string) : M unit :=
  addRoute path first >>
  addRoute path second.

Definition is_config_request (e : event) : bool :=
  match e with
  | Fetch path => String.eqb path "./JamoComponentsConfig.json"
  | _ => false
  end.

(** How often the configuration file was requested in a stretch of log. *)
Definition config_requests (t : list event) : nat :=
  length (List.filter is_config_request t).

(** The last character of a string. *)
Fixpoint last_ascii (s : string) : option Ascii.ascii :=
  match s with
  | EmptyString => None
  | String a EmptyString => Some a
  | String _ rest => last_ascii rest
  end.

(** With the configuration cached, a run keeps it cached and does not
    request it. *)
Record calm (w w' : world) : Prop := {
  calm_config : is_Some (config w) -> is_Some (config w');
  calm_requests :
    is_Some (config w) -> config_requests (log w') = config_requests (log w)
}.

Definition calmly {A} (m : M A) : Prop := forall w, calm w (fst (m w)).

(** The path of a component file with the given extension. *)
Definition file_path (d name ext : string) : string :=
  String.append d (String.append name ext).

(** The [catch] of [#setup]. *)
Definition setup_catch (e : error) : M node :=
  match e with
  | OutOfFuel => throw OutOfFuel
  | _ =>
      modify (emit (ErrorLogged
        "Error fetching, parsing, or rendering template or styles:" e)) >>
      throw RenderError
  end.

(** A component with a directory entry [d] whose template [t] and style
    sheet [css] can be fetched. *)
Record files (env : environment) (dirs : gmap string string)
    (name d t css : string) : Prop := {
  fl_directory : dirs !! name = Some d;
  fl_nonempty : d <> "";
  fl_template : fetch_text env (file_path d name ".html") = Some t;
  fl_styles : fetch_text env (file_path d name ".css") = Some css
}.

(** The events of one render of a component without placeholders, the
    configuration being cached. *)
Definition leaf_events (d name : string) : list event :=
  [Fetch (file_path d name ".html"); Fetch (file_path d name ".css"); Initialize name].

(** *** Placeholders resolved one at a time *)

(** The module a placeholder named [c] is imported from, when the
    configuration is there. *)
Definition module_path (w : world) (c : string) : option string :=
  match config w with
  | Some directory =>
      Some (String.append "/"
              (String.append (js_string c (lookup_member directory c))
                 (String.append c ".js")))
  | None => None
  end.

(** The resolution of placeholders as the design document words it: one
    child at a time, in document order.  The module of the child is
    imported and the child is rendered to completion, its own descendants
    included, and only then does the next one begin, from the world the
    child has left; a failure ends the resolution, and the later
    placeholders are not begun. *)
Fixpoint resolved_in_turn (env : environment) (fuel : nat)
    (names : list string) (w : world) : world * option error :=
  match names with
  | [] => (w, None)
  | c :: rest =>
      match module_path w c with
      | None => (w, Some TypeError)
      | Some path =>
          match import_class env path with
          | None => (emit (Import path) w, Some NetworkError)
          | Some class =>
              match render env fuel class (emit (Import path) w) with
              | (w1, Returns _) => resolved_in_turn env fuel rest w1
              | (w1, Throws e) => (w1, Some e)
              end
          end
      end
  end.

End Component.

(** ** Properties of plain objects *)

Module ObjectFacts.

Lemma lookup_member_own {A} (o : gmap string A) k a :
  o !! k = Some a -> lookup_member o k = Own a.
Proof. unfold lookup_member. by intros ->. Qed.

Lemma lookup_member_absent {A} (o : gmap string A) k :
  o !! k = None -> inherited k = false -> lookup_member o k = Absent.
Proof. unfold lookup_member. by intros -> ->. Qed.

Lemma lookup_member_plain {A} (o : gmap string A) k :
  inherited k = false ->
  lookup_member o k = from_option Own Absent (o !! k).
Proof. unfold lookup_member. intros ->. by destruct (o !! k). Qed.

Lemma lookup_member_insert_eq {A} (o : gmap string A) k a :
  lookup_member (<[k := a]> o) k = Own a.
Proof. unfold lookup_member. by rewrite lookup_insert_eq. Qed.

Lemma lookup_member_insert_ne {A} (o : gmap string A) k k' a :
  k <> k' -> lookup_member (<[k := a]> o) k' = lookup_member o k'.
Proof. intros H. unfold lookup_member. by rewrite lookup_insert_ne. Qed.

End ObjectFacts.

(** ** Properties of the store *)

Module StoreFacts.
Import Store.
Export ObjectFacts.

Lemma prop_own o k v : o !! k = Some v -> prop o k = v.
Proof. intros H. unfold prop. by rewrite (lookup_member_own _ _ _ H). Qed.

Lemma prop_insert_eq o k v : prop (<[k := v]> o) k = v.
Proof. unfold prop. by rewrite lookup_member_insert_eq. Qed.

Lemma prop_insert_ne o k k' v : k <> k' -> prop (<[k := v]> o) k' = prop o k'.
Proof. intros H. unfold prop. by rewrite lookup_member_insert_ne. Qed.

Lemma for_of_call_listener ls w :
  for_of ls call_listener w =
  (World (heap w) (state w) (reducers w) (listeners w) (isConfigured w)
         (trace w ++ map Call ls), Returns tt).
Proof.
  revert w. induction ls as [|f ls IH]; intros [h s r lm c t]; simpl.
  - by rewrite app_nil_r.
  - unfold bind, call_listener, modify, emit; simpl.
    rewrite IH; simpl. by rewrite <- app_assoc.
Qed.

Lemma notification_plain w sl :
  inherited sl = false -> notification w sl = Returns tt.
Proof.
  intros H. unfold notification. rewrite (lookup_member_plain _ _ H).
  by destruct (listeners w !! sl).
Qed.

(** A dispatch on a configured slice writes, logs and calls the listeners
    of the slice; it throws after that when the name of the slice finds an
    inherited member in place of a listener list. *)
Lemma dispatch_configured w l rs r a :
  configured w l rs -> rs !! slice a = Some r ->
  dispatch a w = (dispatched r a l w, notification w (slice a)).
Proof.
  intros [Hc Hs Hr] Hra. destruct w as [h s r0 lm c t]; simpl in *; subst.
  unfold dispatch, dispatched, slice_value, notification, bind, checkConfigured, get;
    simpl.
  rewrite (lookup_member_own _ _ _ Hra); simpl.
  rewrite !lookup_insert_eq; simpl. rewrite prop_insert_eq.
  unfold emit, set_heap; simpl.
  unfold lookup_member.
  destruct (lm !! slice a) as [ls|] eqn:Hls; simpl.
  - rewrite for_of_call_listener; simpl. by rewrite <- app_assoc.
  - by destruct (inherited (slice a)).
Qed.

Lemma dispatch_returns w l rs r a :
  configured w l rs -> rs !! slice a = Some r -> inherited (slice a) = false ->
  dispatch a w = (dispatched r a l w, Returns tt).
Proof.
  intros Hw Hr Ha. rewrite (dispatch_configured w l rs r a Hw Hr).
  by rewrite notification_plain.
Qed.

Lemma dispatched_configured w l rs r a :
  configured w l rs -> configured (dispatched r a l w) l rs.
Proof.
  intros [Hc Hs Hr]. by split.
Qed.

Lemma slice_value_dispatched_eq w l rs r a :
  configured w l rs ->
  slice_value (dispatched r a l w) (slice a) = r (slice_value w (slice a)) a.
Proof.
  intros [_ Hs _]. unfold slice_value at 1; simpl. rewrite Hs.
  rewrite lookup_insert_eq; simpl. by rewrite prop_insert_eq.
Qed.

(** A dispatch leaves the other slices as they were. *)
Lemma slice_value_dispatched_ne w l rs r a k :
  configured w l rs -> k <> slice a ->
  slice_value (dispatched r a l w) k = slice_value w k.
Proof.
  intros [_ Hs _] Hk. unfold slice_value; simpl. rewrite Hs.
  rewrite lookup_insert_eq; simpl. by rewrite prop_insert_ne.
Qed.

Lemma getState_slice w l rs k :
  configured w l rs -> k <> "" ->
  getState (Some k) w = (w, Returns (slice_value w k)).
Proof.
  intros [Hc Hs _] Hk. destruct w; simpl in *; subst.
  unfold getState, slice_value, bind, checkConfigured, get; simpl.
  by destruct (String.eqb_spec k "").
Qed.

Lemma configure_ok w l rs :
  configure (Some l) (Some rs) w =
  (World (heap w) (Some l) (Some rs) (listeners w) true (trace w), Returns tt).
Proof. by destruct w. Qed.

Lemma calls_map_Call ls : calls (map Call ls) = ls.
Proof. induction ls as [|f ls IH]; simpl; [done|]. by rewrite IH. Qed.

Lemma notified_configured w l rs r a :
  configured w l rs -> rs !! slice a = Some r ->
  notified a w = default [] (listeners w !! slice a).
Proof.
  intros Hw Hr. unfold notified, emitted.
  rewrite (dispatch_configured w l rs r a Hw Hr); simpl.
  rewrite drop_app_length; simpl. apply calls_map_Call.
Qed.

(** [subscribe] on a slice that has a list of its own. *)
Lemma subscribe_own w S f ls :
  isConfigured w = true -> listeners w !! S = Some ls ->
  subscribe S f w =
  (set_listeners (<[S := ls ++ [f]]> (listeners w)) w, Returns (Unsubscriber S f)).
Proof.
  intros Hc Hls. destruct w as [h s r lm c t]; simpl in *; subst.
  unfold subscribe, bind, checkConfigured, get, modify; simpl.
  rewrite (lookup_member_own _ _ _ Hls); simpl.
  by rewrite (lookup_member_own _ _ _ Hls).
Qed.

(** [subscribe] on a slice whose name is not inherited. *)
Lemma subscribe_ok w S f :
  isConfigured w = true -> inherited S = false ->
  subscribe S f w =
  (set_listeners (<[S := default [] (listeners w !! S) ++ [f]]> (listeners w)) w,
   Returns (Unsubscriber S f)).
Proof.
  intros Hc HS. destruct (listeners w !! S) as [ls|] eqn:Hls.
  - by apply subscribe_own.
  - destruct w as [h s r lm c t]; simpl in *; subst.
    unfold subscribe, bind, checkConfigured, get, modify; simpl.
    rewrite (lookup_member_absent _ _ Hls HS); simpl.
    rewrite lookup_member_insert_eq; simpl. unfold set_listeners; simpl.
    by rewrite insert_insert_eq.
Qed.

(** [subscribe] on a name that finds an inherited member: there is no
    list to push on, and nothing is registered. *)
Lemma subscribe_inherited w S f :
  isConfigured w = true -> listeners w !! S = None -> inherited S = true ->
  subscribe S f w = (w, Throws NotAFunction).
Proof.
  intros Hc Hls HS. destruct w as [h s r lm c t]; simpl in *; subst.
  unfold subscribe, bind, checkConfigured, get, modify, lookup_member; simpl.
  rewrite Hls, HS; simpl. by rewrite Hls.
Qed.

(** The three ways [subscribe] can go. *)
Lemma subscribe_cases w S f :
  subscribe S f w = (w, Throws NotConfigured) \/
  subscribe S f w = (w, Throws NotAFunction) \/
  subscribe S f w =
  (set_listeners (<[S := default [] (listeners w !! S) ++ [f]]> (listeners w)) w,
   Returns (Unsubscriber S f)).
Proof.
  destruct (isConfigured w) eqn:Hc.
  - destruct (listeners w !! S) as [ls|] eqn:Hls.
    + right; right. by apply subscribe_own.
    + destruct (inherited S) eqn:HS.
      * right; left. by apply subscribe_inherited.
      * right; right. rewrite subscribe_ok by done. by rewrite Hls.
  - left. destruct w; simpl in *; by subst.
Qed.

Lemma subscribe_all_ok w S fs :
  isConfigured w = true -> inherited S = false ->
  subscribe_all S fs w =
  (match fs with
   | [] => w
   | _ => set_listeners
            (<[S := default [] (listeners w !! S) ++ fs]> (listeners w)) w
   end, Returns (map (Unsubscriber S) fs)).
Proof.
  intros Hc HS. revert w Hc. induction fs as [|f fs IH]; intros w Hc; [done|].
  unfold subscribe_all in *; simpl. unfold bind at 1.
  rewrite (subscribe_ok w S f Hc HS). unfold bind at 1.
  rewrite IH by (by destruct w). unfold ret. f_equal.
  destruct fs as [|g fs]; [done|].
  destruct w as [h s r lm c t]; unfold set_listeners; simpl.
  rewrite lookup_insert_eq, insert_insert_eq; simpl.
  by rewrite <- app_assoc.
Qed.

Lemma subscribe_all_nonempty w S fs k f :
  isConfigured w = true -> inherited S = false -> fs !! k = Some f ->
  subscribe_all S fs w =
  (set_listeners (<[S := default [] (listeners w !! S) ++ fs]> (listeners w)) w,
   Returns (map (Unsubscriber S) fs)).
Proof.
  intros Hc HS Hk. rewrite (subscribe_all_ok w S fs Hc HS). by destruct fs.
Qed.

Lemma unsubscribe_ok w S f ls :
  listeners w !! S = Some ls ->
  unsubscribe (Unsubscriber S f) w =
  (set_listeners (<[S := filter (fun l => l <> f) ls]> (listeners w)) w,
   Returns tt).
Proof.
  intros Hls. unfold unsubscribe, bind, get, modify; simpl.
  by rewrite (lookup_member_own _ _ _ Hls).
Qed.

Lemma filter_ne_absent (f : listener) (fs : list listener) :
  f ∉ fs -> filter (fun l => l <> f) fs = fs.
Proof.
  induction fs as [|g fs IH]; intros Hf; [done|].
  apply not_elem_of_cons in Hf as [Hne Hf].
  rewrite filter_cons_True by done. by rewrite IH.
Qed.

Lemma filter_ne_delete (f : listener) (fs : list listener) k :
  NoDup fs -> fs !! k = Some f ->
  filter (fun l => l <> f) fs = delete k fs.
Proof.
  intros Hnd. revert k. induction Hnd as [|g fs Hg Hnd IH]; intros k Hk; [done|].
  destruct k as [|k]; simpl in *.
  - injection Hk as ->. rewrite filter_cons_False by (intros H; by apply H).
    by apply filter_ne_absent.
  - assert (g <> f) by (intros ->; apply Hg; by eapply list_elem_of_lookup_2).
    rewrite filter_cons_True by done. by rewrite (IH k).
Qed.

Lemma filter_ne_idemp (f : listener) (fs : list listener) :
  filter (fun l => l <> f) (filter (fun l => l <> f) fs) = filter (fun l => l <> f) fs.
Proof.
  apply filter_ne_absent. intros Hin. by apply list_elem_of_filter in Hin as [Hne _].
Qed.

(** C1: the fold property fails on the code for the slice named by the
    empty string.  [dispatch] takes the empty name for a slice like any
    other and reduces it, but [getState("")] takes it for a missing
    argument and returns the whole state mapping in place of the value of
    the slice. *)
Theorem getState_empty_slice_not_fold :
  let run := (configure (Some 1%positive) (Some blank_reducers)
              >> dispatch_all [INC ""] >> getState (Some ""))
               (constructor blank_heap) in
  blank_heap !! 1%positive = Some {[ "" := VNum 0 ]} /\
  blank_reducers !! "" = Some inc /\
  slice_value (fst run) "" = fold_left inc [INC ""] (VNum 0) /\
  snd run = Returns (VRef 1%positive) /\
  ~ fold_property (constructor blank_heap) 1%positive {[ "" := VNum 0 ]}
      blank_reducers "" inc [INC ""].
Proof.
  split; [reflexivity|]. split; [reflexivity|]. split; [reflexivity|].
  split; [reflexivity|].
  unfold fold_property. vm_compute. discriminate.
Qed.

(** The scenario of the design document: three ["INC"] on [count]. *)
Example counter_three_times :
  snd ((dispatch_all [INC "count"; INC "count"; INC "count"]
        >> getState (Some "count")) counter_store) = Returns (VNum 3).
Proof. reflexivity. Qed.

(** C3: the guard of [dispatch] does not reject every slice without a
    reducer.  On the counter store, whose only reducer is [count], a
    dispatch on [toString] finds the member inherited from
    [Object.prototype] where the reducer is looked up and calls it: the
    reducer-not-found error is not thrown, the result of the call is
    written to the state under [toString] and logged, and the call ends in
    a type error where the listeners of the slice are looked up. *)
Theorem dispatch_inherited_name_not_rejected :
  let a := Action "toString" "T" VUndefined in
  isConfigured counter_store = true /\
  counter_reducers !! slice a = None /\
  snd (dispatch a counter_store) = Throws NotAFunction /\
  snd (dispatch a counter_store) <> Throws (ReducerNotFound (slice a)) /\
  slice_value counter_store "toString" = VMember "toString" /\
  slice_value (fst (dispatch a counter_store)) "toString" = VStr "[object Object]" /\
  trace (fst (dispatch a counter_store)) = [Log "toString" "T" (VStr "[object Object]")].
Proof.
  cbv zeta. split; [reflexivity|]. split; [reflexivity|].
  split; [reflexivity|]. split; [vm_compute; discriminate|].
  split; [reflexivity|]. split; reflexivity.
Qed.

(** C2, as amended: after subscribing [N] pairwise distinct listeners to a
    slice [S] that had none and whose name is not a member of
    [Object.prototype], a dispatch to [S] calls each of them exactly once,
    in registration order; after calling the closure returned for the
    [k]-th listener, a dispatch to [S] calls the remaining [N-1] listeners
    in their original relative order; the closure changes only the list of
    [S], and calling it again changes nothing. *)
Theorem subscribe_dispatch_unsubscribe w l rs r a S fs k f :
  configured w l rs ->
  rs !! S = Some r ->
  inherited S = false ->
  slice a = S ->
  default [] (listeners w !! S) = [] ->
  NoDup fs ->
  fs !! k = Some f ->
  let w1 := fst (subscribe_all S fs w) in
  let h := Unsubscriber S f in
  let w2 := fst (unsubscribe h w1) in
  snd (subscribe_all S fs w) = Returns (map (Unsubscriber S) fs) /\
  snd (dispatch a w1) = Returns tt /\
  notified a w1 = fs /\
  notified_after_unsubscribe w a S fs k = Some (delete k fs) /\
  length (delete k fs) = length fs - 1 /\
  listeners w2 = <[S := delete k fs]> (listeners w1) /\
  unsubscribe h w2 = (w2, Returns tt).
Proof.
  intros Hw Hr HS Ha Hnone Hnd Hk w1 h w2.
  assert (Hc := cfg_flag _ _ _ Hw).
  assert (Hsub := subscribe_all_nonempty w S fs k f Hc HS Hk).
  rewrite Hnone in Hsub; simpl in Hsub.
  assert (Hw1 : w1 = set_listeners (<[S := fs]> (listeners w)) w).
  { unfold w1. by rewrite Hsub. }
  assert (Hcfg1 : configured w1 l rs).
  { rewrite Hw1. destruct Hw. by split. }
  assert (Hl1 : listeners w1 !! S = Some fs).
  { rewrite Hw1. destruct w; simpl. apply lookup_insert_eq. }
  assert (Hun := unsubscribe_ok w1 S f fs Hl1).
  rewrite (filter_ne_delete f fs k Hnd Hk) in Hun.
  assert (Hw2 : w2 = set_listeners (<[S := delete k fs]> (listeners w1)) w1).
  { unfold w2, h. by rewrite Hun. }
  assert (Hcfg2 : configured w2 l rs).
  { rewrite Hw2. destruct Hcfg1. by split. }
  assert (Hl2 : listeners w2 !! S = Some (delete k fs)).
  { rewrite Hw2. destruct w1; simpl. apply lookup_insert_eq. }
  assert (Hn2 : notified a w2 = delete k fs).
  { rewrite (notified_configured w2 l rs r a Hcfg2) by (by rewrite Ha).
    by rewrite Ha, Hl2. }
  repeat split.
  - by rewrite Hsub.
  - rewrite (dispatch_returns w1 l rs r a Hcfg1); by rewrite ?Ha.
  - rewrite (notified_configured w1 l rs r a Hcfg1) by (by rewrite Ha).
    by rewrite Ha, Hl1.
  - unfold notified_after_unsubscribe. rewrite Hsub.
    assert (Hh : map (Unsubscriber S) fs !! k = Some h).
    { by rewrite list_lookup_fmap, Hk. }
    rewrite Hh, <- Hw1. fold h in Hun.
    rewrite Hun, <- Hw2. by rewrite Hn2.
  - apply length_delete. eauto.
  - by rewrite Hw2; destruct w1.
  - unfold h. rewrite (unsubscribe_ok w2 S f _ Hl2). f_equal.
    rewrite <- (filter_ne_delete f fs k Hnd Hk), filter_ne_idemp.
    rewrite (filter_ne_delete f fs k Hnd Hk).
    rewrite Hw2. destruct w1; unfold set_listeners; simpl.
    by rewrite insert_insert_eq.
Qed.

Lemma subscribe_dispatch_unsubscribe_witness :
  notified (INC "count")
    (fst (subscribe_all "count" [4; 5; 6]%nat counter_store)) = [4; 5; 6]%nat /\
  notified_after_unsubscribe counter_store (INC "count") "count" [4; 5; 6]%nat 1
    = Some [4; 6]%nat.
Proof.
  pose proof (subscribe_dispatch_unsubscribe counter_store 1%positive
                counter_reducers inc (INC "count") "count" [4; 5; 6]%nat 1 5%nat) as H.
  simpl in H. destruct H as (_ & _ & H1 & H2 & _).
  - by split.
  - reflexivity.
  - reflexivity.
  - reflexivity.
  - reflexivity.
  - by apply (bool_decide_unpack _).
  - reflexivity.
  - split; [exact H1 | exact H2].
Defined.

(** C2 as stated fails when one callback is subscribed twice: the closure
    filters by identity and removes both registrations, so the following
    dispatch calls [N-2] listeners. *)
Lemma unsubscribe_removes_every_registration :
  notified (INC "count")
    (fst (subscribe_all "count" [7; 7]%nat counter_store)) = [7; 7]%nat /\
  notified_after_unsubscribe counter_store (INC "count") "count" [7; 7]%nat 0
    = Some [] /\
  notified_after_unsubscribe counter_store (INC "count") "count" [7; 7]%nat 0
    <> Some (delete 0 [7; 7]%nat).
Proof. split; [reflexivity|]. split; [reflexivity|]. vm_compute. discriminate. Qed.




(** C8, as amended: before [configure], [getState] and [subscribe] throw
    the not-configured error and change nothing.  After [configure], for a
    slice that has no reducer, neither of them throws the unknown-slice
    error: [getState] returns what the state mapping holds under that
    name, its own property or else the member it inherits ([undefined]
    when there is neither, the mapping itself for the empty name), and
    [subscribe], for a name that is not a member of [Object.prototype],
    appends the listener to the list of that slice and returns the
    closure. *)
Theorem getState_subscribe_unknown_slice w S f :
  (isConfigured w = false ->
     (forall sl, getState sl w = (w, Throws NotConfigured)) /\
     subscribe S f w = (w, Throws NotConfigured)) /\
  (forall l rs, configured w l rs -> rs !! S = None ->
     getState (Some S) w
       = (w, Returns (if decide (S = "") then VRef l else slice_value w S)) /\
     (inherited S = false ->
      subscribe S f w
        = (set_listeners
             (<[S := default [] (listeners w !! S) ++ [f]]> (listeners w)) w,
           Returns (Unsubscriber S f)))).
Proof.
  split.
  - intros Hc. destruct w; simpl in *; by subst.
  - intros l rs Hw _. split; [|intros HS; by apply subscribe_ok; [apply Hw|]].
    case_decide as HS.
    + subst S. destruct Hw as [Hc Hs _].
      destruct w; simpl in *; by subst.
    + by apply (getState_slice w l rs).
Qed.

Lemma getState_subscribe_unknown_slice_witness :
  subscribe "cart" 3%nat (constructor counter_heap)
    = (constructor counter_heap, Throws NotConfigured) /\
  snd (getState (Some "cart") counter_store) = Returns VUndefined /\
  snd (getState (Some "valueOf") counter_store) = Returns (VMember "valueOf") /\
  listeners (fst (subscribe "cart" 3%nat counter_store)) !! "cart" = Some [3%nat].
Proof.
  destruct (getState_subscribe_unknown_slice (constructor counter_heap) "cart" 3%nat)
    as [H0 _].
  destruct (getState_subscribe_unknown_slice counter_store "cart" 3%nat)
    as [_ H1].
  destruct (getState_subscribe_unknown_slice counter_store "valueOf" 3%nat)
    as [_ H2].
  split; [|split; [|split]].
  - apply H0. reflexivity.
  - destruct (H1 1%positive counter_reducers) as [H3 _];
      [by split | reflexivity |].
    rewrite H3. reflexivity.
  - destruct (H2 1%positive counter_reducers) as [H3 _];
      [by split | reflexivity |].
    rewrite H3. reflexivity.
  - destruct (H1 1%positive counter_reducers) as [_ H3];
      [by split | reflexivity |].
    rewrite H3 by reflexivity. reflexivity.
Defined.

(** C8 as stated fails: on the configured counter store, whose only
    reducer is [count], [getState("cart")] returns [undefined] and
    [subscribe("cart", f)] registers [f]; neither throws. *)
Lemma unknown_slice_is_not_rejected :
  counter_reducers !! "cart" = None /\
  (forall e, snd (getState (Some "cart") counter_store) <> Throws e) /\
  (forall e, snd (subscribe "cart" 3%nat counter_store) <> Throws e) /\
  listeners (fst (subscribe "cart" 3%nat counter_store)) !! "cart" = Some [3%nat].
Proof.
  split; [reflexivity|]. split; [|split].
  - intros e. vm_compute. discriminate.
  - intros e. vm_compute. discriminate.
  - reflexivity.
Qed.

(** C10: a second [configure] replaces the state and the reducers and
    leaves the listener lists as they were, callback for callback and in
    the same order; a dispatch on a slice the new reducers know then calls
    exactly the listeners that were subscribed to it before the call. *)
Theorem configure_keeps_listeners w l' rs' :
  let w' := fst (configure (Some l') (Some rs') w) in
  state w' = Some l' /\
  reducers w' = Some rs' /\
  listeners w' = listeners w /\
  (forall a r, rs' !! slice a = Some r ->
     notified a w' = default [] (listeners w !! slice a)).
Proof.
  intros w'. unfold w'. rewrite configure_ok; simpl.
  repeat split. intros a r Hr.
  by rewrite (notified_configured _ l' rs' r a).
Qed.

Lemma configure_keeps_listeners_witness :
  notified (INC "count")
    (fst (configure (Some 1%positive) (Some counter_reducers)
            (fst (subscribe_all "count" [4; 5]%nat counter_store))))
  = [4; 5]%nat.
Proof.
  pose proof (configure_keeps_listeners
                (fst (subscribe_all "count" [4; 5]%nat counter_store))
                1%positive counter_reducers) as (_ & _ & _ & H).
  exact (H (INC "count") inc eq_refl).
Defined.

End StoreFacts.

(** ** Properties of the composition engine and the router *)

Module ComponentFacts.
Import Component ObjectFacts.

(** *** Laws of the monad used below *)

Section Laws.
Context {W E : Type}.


Lemma for_of_app {A} (body : A -> Js W E unit) (l1 l2 : list A) (w : W) :
  for_of (l1 ++ l2) body w = (for_of l1 body >> for_of l2 body) w.
Proof.
  revert w. induction l1 as [|x l1 IH]; intros w; simpl; [done|].
  unfold bind in *. destruct (body x w) as [w1 [[]|e]]; [|done].
  by rewrite IH.
Qed.
End Laws.

(** *** Induction over the tree of nodes *)

Lemma node_ind (P : node -> Prop) :
  (forall s, P (Text s)) ->
  (forall tag attrs kids, Forall P kids -> P (Element tag attrs kids)) ->
  forall n, P n.
Proof.
  intros HT HE. fix IH 1. intros [s|tag attrs kids]; [apply HT|].
  apply HE. induction kids as [|k kids IHk]; constructor; [apply IH|apply IHk].
Qed.

(** *** What a run may change *)


Lemma evolves_refl w : evolves w w.
Proof. split; try done. intros id. lia. Qed.

Lemma evolves_trans w1 w2 w3 : evolves w1 w2 -> evolves w2 w3 -> evolves w1 w3.
Proof.
  intros [] []. split; try (etrans; eassumption); try congruence; eauto.
  intros id. etrans; [eauto|]. specialize (ev_once0 id). lia.
Qed.

Lemma evolves_emit e w : evolves w (emit e w).
Proof.
  split; try done; simpl.
  - by apply prefix_app_r.
  - intros id. unfold registrations; simpl. lia.
Qed.

Lemma evolves_set_config c w : config w = None -> evolves w (set_config (Some c) w).
Proof.
  intros Hc. split; try done; simpl.
  - intros id. unfold registrations; simpl. lia.
  - intros c'. by rewrite Hc.
Qed.

Lemma registrations_absent w id :
  getElementById w id = false -> registrations w id = 0.
Proof.
  unfold getElementById, registrations. intros H.
  apply orb_false_elim in H as [H _]. apply orb_false_elim in H as [H _].
  induction (head w) as [|[i css] h IH]; simpl in *; [done|].
  apply orb_false_elim in H as [Hi H].
  rewrite filter_cons_False; [by apply IH|].
  simpl. intros ->. by rewrite String.eqb_refl in Hi.
Qed.

Lemma registrations_append w id css id' :
  registrations (set_head (head w ++ [(id, css)]) w) id'
  = registrations w id' + (if decide (id = id') then 1 else 0).
Proof.
  unfold registrations; simpl. rewrite filter_app, length_app. f_equal.
  case_decide.
  - by rewrite filter_cons_True.
  - by rewrite filter_cons_False.
Qed.

Lemma evolves_add_style id css w :
  getElementById w id = false ->
  evolves w (set_head (head w ++ [(id, css)]) w).
Proof.
  intros Hid. split; try done; simpl.
  - by apply prefix_app_r.
  - intros id'. rewrite registrations_append. case_decide; [|lia].
    subst id'. rewrite (registrations_absent w id Hid). lia.
Qed.


Lemma steps_ret {A} (a : A) : steps (ret a).
Proof. intros w. apply evolves_refl. Qed.

Lemma steps_throw {A} e : steps (throw (A := A) e).
Proof. intros w. apply evolves_refl. Qed.

Lemma steps_emit e : steps (modify (emit e)).
Proof. intros w. apply evolves_emit. Qed.

Lemma steps_bind {A B} (m : M A) (k : A -> M B) :
  steps m -> (forall a, steps (k a)) -> steps (bind m k).
Proof.
  intros Hm Hk w. unfold bind. specialize (Hm w).
  destruct (m w) as [w1 [a|e]]; [|done].
  eapply evolves_trans; [exact Hm|apply Hk].
Qed.

Lemma steps_get {A} (k : world -> M A) :
  (forall w, evolves w (fst (k w w))) -> steps (bind get k).
Proof. intros Hk w. apply Hk. Qed.

Lemma steps_try_catch {A} (m : M A) (h : error -> M A) :
  steps m -> (forall e, steps (h e)) -> steps (try_catch m h).
Proof.
  intros Hm Hh w. unfold try_catch. specialize (Hm w).
  destruct (m w) as [w1 [a|e]]; [done|].
  eapply evolves_trans; [exact Hm|apply Hh].
Qed.

Lemma steps_map_js {A B} (f : A -> M B) (xs : list A) :
  Forall (fun x => steps (f x)) xs -> steps (map_js f xs).
Proof.
  induction 1 as [|x xs Hx _ IH]; simpl; [apply steps_ret|].
  apply steps_bind; [done|]. intros y.
  apply steps_bind; [done|]. intros ys. apply steps_ret.
Qed.

Section EngineSteps.
Variable env : environment.

Lemma steps_loadConfig : steps (loadConfig env).
Proof.
  apply steps_get. intros w. destruct (config w) eqn:Hc; [apply evolves_refl|].
  unfold try_catch, bind, modify, throw; simpl.
  destruct (config_file env) as [c|]; simpl.
  - eapply evolves_trans; [apply evolves_emit|].
    by apply evolves_set_config.
  - eapply evolves_trans; apply evolves_emit.
Qed.

Lemma steps_setPaths name : steps (setPaths env name).
Proof.
  apply steps_get. intros w. apply steps_bind.
  - destruct (config w); [apply steps_ret|apply steps_loadConfig].
  - intros _. apply steps_get. intros w'.
    destruct (config w') as [d|]; [|apply evolves_refl].
    cbv zeta. destruct (falsy (lookup_member d name)); apply evolves_refl.
Qed.

Lemma steps_fetchTemplateAndStyles tp sp :
  steps (fetchTemplateAndStyles env tp sp).
Proof.
  apply steps_try_catch.
  - apply steps_bind; [apply steps_emit|]. intros _.
    apply steps_bind; [apply steps_emit|]. intros _.
    destruct (fetch_text env tp), (fetch_text env sp);
      first [apply steps_ret | apply steps_throw].
  - intros e. apply steps_bind; [apply steps_emit|]. intros _.
    apply steps_throw.
Qed.

Lemma steps_applyStyles name css : steps (applyStyles name css).
Proof.
  apply steps_get. intros w.
  destruct (getElementById w _) eqn:Hid; [apply evolves_refl|].
  by apply evolves_add_style.
Qed.

Section NestedSteps.
Variable render_instance : string -> M node.
Hypothesis steps_instance : forall c, steps (render_instance c).

Lemma steps_renderPlaceholder c :
  steps (renderPlaceholder env render_instance c).
Proof.
  apply steps_get. intros w. destruct (config w) as [d|]; [|apply evolves_refl].
  apply steps_bind; [apply steps_emit|]. intros _.
  destruct (import_class env _); [apply steps_instance|apply steps_throw].
Qed.

Lemma steps_resolve n : steps (resolve env render_instance n).
Proof.
  induction n as [s|tag attrs kids IH] using node_ind; simpl.
  - apply steps_ret.
  - assert (Hkids : steps (map_js (resolve env render_instance) kids))
      by (by apply steps_map_js).
    destruct (attribute "data-component" attrs) as [c|].
    + destruct (String.eqb c "").
      * apply steps_bind; [done|]. intros ?. apply steps_ret.
      * apply steps_bind; [apply steps_renderPlaceholder|]. intros ?.
        apply steps_bind; [done|]. intros ?. apply steps_ret.
    + apply steps_bind; [done|]. intros ?. apply steps_ret.
Qed.

Lemma steps_resolve_all kids :
  steps (map_js (resolve env render_instance) kids).
Proof. apply steps_map_js, Forall_forall. intros n _. apply steps_resolve. Qed.

Lemma steps_renderNestedComponents element :
  steps (renderNestedComponents env render_instance element).
Proof.
  destruct element as [[s|tag attrs kids]|]; simpl; try apply steps_throw.
  apply steps_bind; [apply steps_resolve_all|]. intros ?. apply steps_ret.
Qed.

Lemma steps_setup name : steps (setup env render_instance name).
Proof.
  apply steps_try_catch.
  - apply steps_bind; [apply steps_setPaths|]. intros [tp sp].
    apply steps_bind; [apply steps_fetchTemplateAndStyles|]. intros [t css].
    apply steps_bind; [apply steps_applyStyles|]. intros _.
    apply steps_renderNestedComponents.
  - intros e.
    destruct e; try apply steps_throw;
      (apply steps_bind; [apply steps_emit|]; intros _; apply steps_throw).
Qed.
End NestedSteps.

Lemma steps_render fuel name : steps (render env fuel name).
Proof.
  revert name. induction fuel as [|fuel IH]; intros name; simpl.
  - apply steps_throw.
  - apply steps_bind; [by apply steps_setup|]. intros e.
    apply steps_bind; [apply steps_emit|]. intros _. apply steps_ret.
Qed.
End EngineSteps.

(** *** Sibling placeholders are resolved one after the other *)

Lemma same_effect_trans {A B C} (m1 : M A) (m2 : M B) (m3 : M C) :
  same_effect m1 m2 -> same_effect m2 m3 -> same_effect m1 m3.
Proof. intros H1 H2 w. by rewrite H1. Qed.

Lemma same_effect_bind {A A' B B'} (m : M A) (m' : M A')
    (k : A -> M B) (k' : A' -> M B') :
  same_effect m m' -> (forall a a', same_effect (k a) (k' a')) ->
  same_effect (bind m k) (bind m' k').
Proof.
  intros Hm Hk w. specialize (Hm w). unfold effect, bind in *.
  destruct (m w) as [w1 [a|e]], (m' w) as [w1' [a'|e']]; simplify_eq; [|done].
  apply Hk.
Qed.

Lemma same_effect_bind_ret {A B} (m : M A) (g : A -> B) :
  same_effect (let* a := m in ret (g a)) m.
Proof. intros w. unfold effect, bind, ret. by destruct (m w) as [w1 [a|e]]. Qed.

Lemma same_effect_sym {A B} (m : M A) (m' : M B) :
  same_effect m m' -> same_effect m' m.
Proof. intros H w. by rewrite H. Qed.

Section DocumentOrder.
Variable env : environment.
Variable render_instance : string -> M node.

Lemma same_effect_resolve_all kids :
  Forall (fun n => same_effect (resolve env render_instance n)
                     (placeholderLoop env render_instance (placeholders n))) kids ->
  same_effect (map_js (resolve env render_instance) kids)
    (placeholderLoop env render_instance (concat (map placeholders kids))).
Proof.
  induction 1 as [|k kids Hk _ IH]; simpl; [done|].
  eapply same_effect_trans;
    [|apply same_effect_sym; intros w; unfold effect, placeholderLoop;
      by rewrite for_of_app].
  apply same_effect_bind; [exact Hk|]. intros y _.
  eapply same_effect_trans; [|exact IH].
  apply (same_effect_bind_ret _ (fun ys => y :: ys)).
Qed.

Lemma same_effect_resolve n :
  same_effect (resolve env render_instance n)
    (placeholderLoop env render_instance (placeholders n)).
Proof.
  induction n as [s|tag attrs kids IH] using node_ind; simpl; [done|].
  apply same_effect_resolve_all in IH.
  destruct (attribute "data-component" attrs) as [c|]; simpl.
  - destruct (String.eqb c ""); simpl.
    + eapply same_effect_trans; [|exact IH]. apply same_effect_bind_ret.
    + unfold placeholderLoop; simpl.
      apply same_effect_bind.
      * apply same_effect_sym, (same_effect_bind_ret _ (fun _ => tt)).
      * intros e _. eapply same_effect_trans; [|exact IH].
        apply (same_effect_bind_ret _ (fun _ => e)).
  - eapply same_effect_trans; [|exact IH]. apply same_effect_bind_ret.
Qed.
End DocumentOrder.

(** On the small site the two children are imported, fetched and
    initialised one after the other, and the parent last. *)
Example site_render_log :
  log (fst (render site 2 "Parent" fresh_page)) =
  [ Fetch "./JamoComponentsConfig.json";
    Fetch "components/Parent/Parent.html"; Fetch "components/Parent/Parent.css";
Import "/components/Child/Child.js";
Fetch "components/Child/Child.html"; Fetch "components/Child/Child.css";
Initialize "Child";
Import "/components/Child/Child.js";
Fetch "components/Child/Child.html"; Fetch "components/Child/Child.css";
Initialize "Child";
Initialize "Parent" ].
Proof. reflexivity. Qed.

(** *** Routing to an unknown key *)

(** C9: when the current location is not a key of the route table,
    [handleRouting] returns normally, the only thing it does is to report
    the invalid path, and what is mounted in the root element stays as it
    was: nothing is cleared and nothing is rendered. *)
Theorem handleRouting_unknown_route env fuel w :
  routes w !! hash w = None ->
  handleRouting env fuel w = (emit (InvalidPath (hash w)) w, Returns tt) /\
  mounted (fst (handleRouting env fuel w)) = mounted w /\
  emitted (handleRouting env fuel) w = [InvalidPath (hash w)].
Proof.
  intros Hroute.
  assert (Hrun : handleRouting env fuel w = (emit (InvalidPath (hash w)) w, Returns tt)).
  { unfold handleRouting, bind, get. by rewrite Hroute. }
  split; [exact Hrun|]. unfold emitted. rewrite Hrun; simpl.
  split; [done|]. by rewrite drop_app_length.
Qed.

(** The scenario of the design document: with the one route ["#/x"],
    going to ["/y"] reports the path and leaves the page as it was. *)
Lemma handleRouting_unknown_route_witness :
  goToPage site 3 "/y" fresh_page
  = (emit (InvalidPath "#/y") (set_hash "#/y" fresh_page), Returns tt) /\
  mounted (fst (goToPage site 3 "/y" fresh_page)) = mounted fresh_page.
Proof.
  destruct (handleRouting_unknown_route site 3 (set_hash "#/y" fresh_page))
    as (Hrun & Hmounted & _); [reflexivity|].
  split.
  - exact Hrun.
  - exact Hmounted.
Defined.

(** With a known key the root element is cleared and the rendered
    component is mounted in its place. *)
Example goToPage_known_route :
  mounted (fst (goToPage site 3 "/x" fresh_page)) =
  [Element "div" [] [Element "p" [] [Text "hi"]; Element "p" [] [Text "hi"]]].
Proof. reflexivity. Qed.

(** *** Components without a directory entry *)

Section Unconfigured.
Variable env : environment.

Lemma loadConfig_directory w dirs :
  directory env w = Some dirs ->
  forall (H : config w = None),
  loadConfig env w = (loaded env w, Returns tt).
Proof.
  unfold directory, loaded, loadConfig, bind, get, try_catch, modify.
  intros Hd Hc. rewrite Hc in *. by rewrite Hd.
Qed.

Lemma config_loaded w dirs :
  directory env w = Some dirs -> config (loaded env w) = Some dirs.
Proof.
  unfold directory, loaded. destruct (config w) eqn:Hc; [by rewrite Hc|].
  by intros ->.
Qed.

(** [setPaths] once the configuration is there. *)
Lemma setPaths_loaded name w dirs :
  directory env w = Some dirs ->
  setPaths env name w =
  (loaded env w,
   if falsy (lookup_member dirs name) then Throws (ConfigurationNotFound name)
   else Returns (String.append (js_string name (lookup_member dirs name))
                   (String.append name ".html"),
                 String.append (js_string name (lookup_member dirs name))
                   (String.append name ".css"))).
Proof.
  intros Hd. pose proof (config_loaded w dirs Hd) as Hl.
  unfold setPaths, bind at 1, get. unfold bind at 1.
  destruct (config w) eqn:Hc.
  - unfold ret, bind, get. unfold loaded in *. rewrite Hc in *.
    simplify_eq. cbv zeta. by destruct (falsy (lookup_member dirs name)).
  - rewrite (loadConfig_directory w dirs Hd Hc). unfold bind, get.
    rewrite Hl. cbv zeta. by destruct (falsy (lookup_member dirs name)).
Qed.

Lemma setPaths_unconfigured name w dirs :
  directory env w = Some dirs -> dirs !! name = None -> inherited name = false ->
  setPaths env name w = (loaded env w, Throws (ConfigurationNotFound name)).
Proof.
  intros Hd Hname Hplain. rewrite (setPaths_loaded name w dirs Hd).
  by rewrite (lookup_member_absent _ _ Hname Hplain).
Qed.

(** For the node [render] is called on, a missing directory entry makes
    the render fail before any request for the template or the styles:
    apart from loading the configuration, the run only logs the
    cause. *)
Lemma render_unconfigured_root fuel name w dirs :
  directory env w = Some dirs -> dirs !! name = None -> inherited name = false ->
  render env (S fuel) name w =
  (emit (ErrorLogged "Error fetching, parsing, or rendering template or styles:"
           (ConfigurationNotFound name)) (loaded env w),
   Throws RenderError).
Proof.
  intros Hd Hname Hplain. simpl. unfold bind at 1. unfold setup, try_catch.
  unfold bind at 1. by rewrite (setPaths_unconfigured name w dirs Hd Hname Hplain).
Qed.

(** For a placeholder, the directory entry is read and used unchecked:
    whatever the class turns out to be, the first thing the turn of the
    loop does is to import a module from a path made with
    ["undefined"]. *)
Lemma renderPlaceholder_unconfigured fuel c w dirs :
  config w = Some dirs -> dirs !! c = None -> inherited c = false ->
  exists rest,
    emitted (renderPlaceholder env (render env fuel) c) w
    = Import (String.append "/undefined" (String.append c ".js")) :: rest.
Proof.
  intros Hc Hname Hplain. unfold emitted, renderPlaceholder, bind at 1, get.
  rewrite Hc, (lookup_member_absent _ _ Hname Hplain); simpl. unfold bind, modify.
  change (String.append "/" (String.append "undefined" (String.append c ".js")))
    with (String.append "/undefined" (String.append c ".js")).
  set (path := String.append "/undefined" (String.append c ".js")).
  set (w1 := emit (Import path) w).
  assert (Hlog : log w1 `prefix_of` log (fst (
            match import_class env path with
            | Some class => render env fuel class
            | None => throw NetworkError
            end w1))).
  { destruct (import_class env path); [apply ev_log, steps_render|done]. }
  destruct Hlog as [rest Hrest]. exists rest. rewrite Hrest.
  unfold w1; simpl. rewrite <- app_assoc. by rewrite drop_app_length.
Qed.
End Unconfigured.

(** C6 fails on the code for placeholder children.  On the small site
    with the entry of [Child] missing, rendering [Parent] reaches the
    placeholder and requests the module ["/undefinedChild.js"] before
    anything notices the missing entry; the render then fails because the
    import is rejected, and the logged cause is the rejection, not the
    missing configuration. *)
Theorem unconfigured_child_is_imported :
  render site_without_child 2 "Parent" fresh_page
  = (World (Some {[ "Parent" := "components/Parent/" ]})
           [("Parent-styles", ".parent{}")]
           "root" (mounted fresh_page) "" (routes fresh_page)
           [ Fetch "./JamoComponentsConfig.json";
             Fetch "components/Parent/Parent.html";
             Fetch "components/Parent/Parent.css";
Import "/undefinedChild.js";
ErrorLogged "Error fetching, parsing, or rendering template or styles:"
  NetworkError ],
Throws RenderError).
Proof. reflexivity. Qed.

(** *** Styles are applied once per component type *)





Section Available.
Variable env : environment.
Variable render_instance : string -> M node.

Lemma resolve_plain n w :
  plain n -> resolve env render_instance n w = (w, Returns n).
Proof.
  revert w. induction n as [s|tag attrs kids IH] using node_ind;
    intros w Hplain; [done|].
  unfold plain in Hplain; simpl in Hplain.
  apply app_eq_nil in Hplain as [Hattr Hkids].
  assert (Hall : forall u, map_js (resolve env render_instance) kids u = (u, Returns kids)).
  { clear Hattr. induction IH as [|k kids Hk _ IHkids]; intros u; [done|].
    simpl in *. apply app_eq_nil in Hkids as [Hk' Hkids].
    unfold bind, ret. rewrite (Hk u Hk'). by rewrite (IHkids Hkids). }
  simpl. destruct (attribute "data-component" attrs) as [c|].
  - destruct (String.eqb c ""); [|done].
    unfold bind, ret. by rewrite Hall.
  - unfold bind, ret. by rewrite Hall.
Qed.

Lemma resolve_all_plain kids w :
  Forall plain kids ->
  map_js (resolve env render_instance) kids w = (w, Returns kids).
Proof.
  intros Hkids. revert w. induction Hkids as [|k kids Hk _ IH]; intros w; [done|].
  simpl. unfold bind, ret. rewrite (resolve_plain k w Hk). by rewrite IH.
Qed.

Lemma setPaths_available name w dirs d :
  directory env w = Some dirs -> dirs !! name = Some d -> d <> "" ->
  setPaths env name w =
  (loaded env w,
   Returns (String.append d (String.append name ".html"),
            String.append d (String.append name ".css"))).
Proof.
  intros Hd Hname Hne. rewrite (setPaths_loaded env name w dirs Hd).
  rewrite (lookup_member_own _ _ _ Hname); simpl.
  by destruct (String.eqb_spec d "").
Qed.

Lemma fetchTemplateAndStyles_available tp sp t css w :
  fetch_text env tp = Some t -> fetch_text env sp = Some css ->
  fetchTemplateAndStyles env tp sp w
  = (emit (Fetch sp) (emit (Fetch tp) w), Returns (t, css)).
Proof.
  intros Ht Hcss. unfold fetchTemplateAndStyles, try_catch, bind, modify.
  rewrite Ht, Hcss; simpl. by destruct (String.eqb_spec sp "") as [->|].
Qed.

End Available.

Lemma config_styled name css w : config (styled name css w) = config w.
Proof. unfold styled. by destruct (getElementById w _). Qed.


Lemma getElementById_styled_same name css w :
  getElementById (styled name css w) (String.append name "-styles") = true.
Proof.
  unfold styled. destruct (getElementById w _) eqn:Hid; [done|].
  unfold getElementById; simpl. rewrite existsb_app; simpl.
  by rewrite String.eqb_refl, orb_true_r.
Qed.





Section Leaf.
Variable env : environment.


End Leaf.




End ComponentFacts.


(** ** Further properties of the store *)

Module StoreLaws.
Import Store StoreFacts.

(** *** What each operation leaves alone *)

Lemma getState_world sl w : fst (getState sl w) = w.
Proof.
  destruct w as [h s r lm [|] t]; unfold getState, bind, checkConfigured, get;
    simpl; [|done].
  destruct (truthy sl); [|done]. by destruct s.
Qed.

Ltac dispatch_tail lm a :=
  unfold dispatched, slice_value, notification; simpl;
  rewrite ?lookup_insert_eq; simpl; rewrite ?prop_insert_eq;
  unfold emit, set_heap; simpl;
  unfold lookup_member;
  destruct (lm !! slice a); simpl;
  [rewrite for_of_call_listener; simpl; by rewrite <- app_assoc
  |by destruct (inherited (slice a))].

(** A dispatch either throws before it has written anything, or goes
    through with some reducer: a configured one, or a member inherited by
    the reducers object. *)
Lemma dispatch_cases a w :
  (exists e, dispatch a w = (w, Throws e) /\
             (e = TypeError -> state w = None \/ reducers w = None)) \/
  (exists l rd, state w = Some l /\
                dispatch a w = (dispatched rd a l w, notification w (slice a))).
Proof.
  destruct w as [h s r lm c t].
  destruct c; [|left; exists NotConfigured; split; [done|discriminate]].
  destruct r as [rs|]; [|left; exists TypeError; split; [done|by right]].
  unfold dispatch, bind, checkConfigured, get; simpl.
  destruct (lookup_member rs (slice a)) as [rd| |] eqn:Hrd; simpl.
  - destruct s as [l|]; simpl.
    + right. exists l, rd. split; [done|]. dispatch_tail lm a.
    + left. exists TypeError. split; [done|by left].
  - unfold inherited_reducer.
    destruct (String.eqb (slice a) "toString"); simpl.
    + destruct s as [l|]; simpl.
      * right. exists l, (fun _ _ => VStr "[object Object]"). split; [done|].
        dispatch_tail lm a.
      * left. exists TypeError. split; [done|by left].
    + destruct (String.eqb (slice a) "__proto__"); simpl;
        left; eexists; (split; [done|discriminate]).
  - left. exists (ReducerNotFound (slice a)). split; [done|discriminate].
Qed.

Lemma dispatch_fields a w :
  state (fst (dispatch a w)) = state w /\
  reducers (fst (dispatch a w)) = reducers w /\
  listeners (fst (dispatch a w)) = listeners w /\
  isConfigured (fst (dispatch a w)) = isConfigured w /\
  trace w `prefix_of` trace (fst (dispatch a w)).
Proof.
  destruct (dispatch_cases a w) as [(e & -> & _)|(l & rd & _ & ->)]; simpl.
  - done.
  - repeat split. by apply prefix_app_r.
Qed.

Lemma subscribe_fields sl f w :
  heap (fst (subscribe sl f w)) = heap w /\
  state (fst (subscribe sl f w)) = state w /\
  reducers (fst (subscribe sl f w)) = reducers w /\
  isConfigured (fst (subscribe sl f w)) = isConfigured w /\
  trace (fst (subscribe sl f w)) = trace w.
Proof.
  by destruct (subscribe_cases w sl f) as [->|[->| ->]].
Qed.

Lemma unsubscribe_fields u w :
  heap (fst (unsubscribe u w)) = heap w /\
  state (fst (unsubscribe u w)) = state w /\
  reducers (fst (unsubscribe u w)) = reducers w /\
  isConfigured (fst (unsubscribe u w)) = isConfigured w /\
  trace (fst (unsubscribe u w)) = trace w.
Proof.
  unfold unsubscribe, bind, get, modify; simpl.
  by destruct (lookup_member (listeners w) (u_slice u)).
Qed.

(** *** Invariants over every sequence of calls *)

(** A store is sound when the flag implies that both fields are set. *)
Lemma perform_sound c w :
  (isConfigured w = true -> is_Some (state w) /\ is_Some (reducers w)) ->
  isConfigured (perform c w) = true ->
  is_Some (state (perform c w)) /\ is_Some (reducers (perform c w)).
Proof.
  intros Hw. destruct c as [i rs|sl|a|sl f|u]; cbn [perform].
  - destruct i as [l|], rs as [r|]; try exact Hw.
    rewrite configure_ok; simpl. eauto.
  - by rewrite getState_world.
  - destruct (dispatch_fields a w) as (-> & -> & _ & -> & _). exact Hw.
  - destruct (subscribe_fields sl f w) as (_ & -> & -> & -> & _). exact Hw.
  - destruct (unsubscribe_fields u w) as (_ & -> & -> & -> & _). exact Hw.
Qed.

Lemma perform_all_sound cs w :
  (isConfigured w = true -> is_Some (state w) /\ is_Some (reducers w)) ->
  isConfigured (perform_all cs w) = true ->
  is_Some (state (perform_all cs w)) /\ is_Some (reducers (perform_all cs w)).
Proof.
  revert w. induction cs as [|c cs IH]; intros w Hw; [exact Hw|].
  simpl. apply IH. by apply perform_sound.
Qed.

Lemma perform_configured c w :
  isConfigured w = true -> isConfigured (perform c w) = true.
Proof.
  intros Hw. destruct c as [i rs|sl|a|sl f|u]; cbn [perform].
  - destruct i as [l|], rs as [r|]; try exact Hw. by rewrite configure_ok.
  - by rewrite getState_world.
  - by destruct (dispatch_fields a w) as (_ & _ & _ & -> & _).
  - by destruct (subscribe_fields sl f w) as (_ & _ & _ & -> & _).
  - by destruct (unsubscribe_fields u w) as (_ & _ & _ & -> & _).
Qed.

Lemma perform_keeps_list c w sl :
  is_Some (listeners w !! sl) -> is_Some (listeners (perform c w) !! sl).
Proof.
  intros Hsl. destruct c as [i rs|sl'|a|sl' f|u]; cbn [perform].
  - destruct i as [l|], rs as [r|]; exact Hsl.
  - by rewrite getState_world.
  - by destruct (dispatch_fields a w) as (_ & _ & -> & _).
  - destruct (subscribe_cases w sl' f) as [->|[->| ->]]; try exact Hsl.
    destruct w; simpl in *.
    destruct (decide (sl' = sl)) as [->|Hne].
    + rewrite lookup_insert_eq. eauto.
    + by rewrite lookup_insert_ne.
  - unfold unsubscribe, bind, get, modify, lookup_member; simpl.
    destruct (listeners w !! u_slice u) as [ls|] eqn:Hu; simpl.
    + destruct w; simpl in *.
      destruct (decide (u_slice u = sl)) as [->|Hne].
      * rewrite lookup_insert_eq. eauto.
      * by rewrite lookup_insert_ne.
    + by destruct (inherited (u_slice u)).
Qed.

Lemma perform_all_keeps_list cs w sl :
  is_Some (listeners w !! sl) -> is_Some (listeners (perform_all cs w) !! sl).
Proof.
  revert w. induction cs as [|c cs IH]; intros w Hw; [exact Hw|].
  simpl. apply IH. by apply perform_keeps_list.
Qed.

(** X1: whatever calls a client has made on a new store, and whether they
    returned or threw, the store is never left with the flag set and a
    field still [null]; so [dispatch] and [getState] never fail with a
    type error on it. *)
Theorem store_never_half_configured h cs a sl :
  let w := perform_all cs (constructor h) in
  (isConfigured w = true -> is_Some (state w) /\ is_Some (reducers w)) /\
  snd (dispatch a w) <> Throws TypeError /\
  snd (getState sl w) <> Throws TypeError.
Proof.
  intros w.
  assert (Hw : isConfigured w = true -> is_Some (state w) /\ is_Some (reducers w)).
  { apply perform_all_sound. discriminate. }
  split; [exact Hw|]. split.
  - destruct (isConfigured w) eqn:Hc.
    + destruct Hw as [[l Hl] [rs Hrs]]; [done|].
      destruct (dispatch_cases a w) as [(e & -> & He)|(l' & rd & _ & ->)]; simpl.
      * intros [= ->]. destruct He as [He|He]; [done|congruence|congruence].
      * unfold notification. by destruct (lookup_member (listeners w) (slice a)).
    + destruct w; simpl in *; by subst.
  - destruct w as [hp s r lm [|] t]; simpl in *; [|done].
    destruct Hw as [[l ->] [rs ->]]; [done|].
    unfold getState, bind, checkConfigured, get; simpl.
    by destruct (truthy sl).
Qed.

(** X2: once [configure] has succeeded the store stays configured: no
    later call, a failing [configure] included, resets the flag. *)
Theorem configured_for_good cs w :
  isConfigured w = true -> isConfigured (perform_all cs w) = true.
Proof.
  revert w. induction cs as [|c cs IH]; intros w Hw; [exact Hw|].
  simpl. apply IH. by apply perform_configured.
Qed.

Lemma configured_for_good_witness :
  isConfigured
    (perform_all [Dispatch (INC "cart"); Configure None None; Subscribe "count" 1%nat]
       counter_store) = true.
Proof. apply configured_for_good. reflexivity. Defined.

(** X3: the closure returned by [subscribe] can be called at any later
    time without throwing, whatever calls were made in between. *)
Theorem unsubscribe_never_throws sl f w w1 u cs :
  subscribe sl f w = (w1, Returns u) ->
  snd (unsubscribe u (perform_all cs w1)) = Returns tt.
Proof.
  intros Hsub.
  destruct (subscribe_cases w sl f) as [H|[H|H]]; rewrite H in Hsub;
    try discriminate.
  injection Hsub as <- <-.
  assert (Hkey : is_Some (listeners (perform_all cs
            (set_listeners (<[sl := default [] (listeners w !! sl) ++ [f]]> (listeners w)) w))
            !! sl)).
  { apply perform_all_keeps_list. destruct w; simpl. rewrite lookup_insert_eq. eauto. }
  destruct Hkey as [ls Hls].
  unfold unsubscribe, bind, get, modify; simpl.
  by rewrite (lookup_member_own _ _ _ Hls).
Qed.

Lemma unsubscribe_never_throws_witness :
  snd (unsubscribe (Unsubscriber "count" 4%nat)
         (perform_all [Configure (Some 1%positive) (Some counter_reducers);
                       Unsubscribe (Unsubscriber "count" 4%nat);
                       Dispatch (INC "count")]
            (fst (subscribe "count" 4%nat counter_store)))) = Returns tt.
Proof.
  apply (unsubscribe_never_throws "count" 4%nat counter_store). reflexivity.
Defined.

(** X4: reading the state and managing subscriptions never write the
    state: after any sequence of [getState], [subscribe] and unsubscribe
    calls the heap, the state and reducer fields and the trace are what
    they were, so every slice still has its value. *)
Theorem quiet_calls_keep_state cs w :
  Forall (fun c => is_quiet c = true) cs ->
  let w' := perform_all cs w in
  heap w' = heap w /\ state w' = state w /\ reducers w' = reducers w /\
  trace w' = trace w /\ forall k, slice_value w' k = slice_value w k.
Proof.
  intros Hcs; simpl.
  assert (H : heap (perform_all cs w) = heap w /\ state (perform_all cs w) = state w /\
              reducers (perform_all cs w) = reducers w /\
              trace (perform_all cs w) = trace w).
  { revert w. induction Hcs as [|c cs Hc _ IH]; intros w; [done|].
    simpl. destruct (IH (perform c w)) as (-> & -> & -> & ->).
    destruct c as [i rs|sl|a|sl f|u]; try discriminate; cbn [perform].
    - by rewrite getState_world.
    - by destruct (subscribe_fields sl f w) as (-> & -> & -> & _ & ->).
    - by destruct (unsubscribe_fields u w) as (-> & -> & -> & _ & ->). }
  destruct H as (Hh & Hs & Hr & Ht). repeat split; try done.
  intros k. unfold slice_value. by rewrite Hs, Hh.
Qed.

Lemma quiet_calls_keep_state_witness :
  slice_value
    (perform_all [Subscribe "count" 2%nat; GetState None;
                  Unsubscribe (Unsubscriber "count" 2%nat)] counter_store) "count"
  = VNum 0.
Proof.
  pose proof (quiet_calls_keep_state
                [Subscribe "count" 2%nat; GetState None;
                 Unsubscribe (Unsubscriber "count" 2%nat)] counter_store) as H.
  simpl in H. destruct H as (_ & _ & _ & _ & H); [by repeat constructor|].
  exact (H "count").
Defined.

(** X5: a dispatch on a slice [S] that has a reducer and whose name is not
    a member of [Object.prototype] returns and changes the value of [S]
    only: every other slice, every other object of the heap, the reducers
    and the listener lists are as before, and the listeners called are
    exactly those registered on [S], in order. *)
Theorem dispatch_touches_one_slice w l rs r a :
  configured w l rs ->
  rs !! slice a = Some r ->
  inherited (slice a) = false ->
  let w' := fst (dispatch a w) in
  snd (dispatch a w) = Returns tt /\
  slice_value w' (slice a) = r (slice_value w (slice a)) a /\
  (forall k, k <> slice a -> slice_value w' k = slice_value w k) /\
  (forall l', l' <> l -> heap w' !! l' = heap w !! l') /\
  reducers w' = reducers w /\
  listeners w' = listeners w /\
  notified a w = listeners_of w (slice a).
Proof.
  intros Hw Hr Ha; simpl. rewrite (dispatch_returns w l rs r a Hw Hr Ha); simpl.
  split; [done|]. split; [by eapply slice_value_dispatched_eq|].
  split; [intros k Hk; by eapply slice_value_dispatched_ne|].
  split; [intros l' Hl'; by apply lookup_insert_ne|].
  split; [done|]. split; [done|].
  by apply (notified_configured w l rs r a).
Qed.

Lemma dispatch_touches_one_slice_witness :
  snd (dispatch (INC "count") counter_store) = Returns tt /\
  slice_value (fst (dispatch (INC "count") counter_store)) "count" = VNum 1 /\
  slice_value (fst (dispatch (INC "count") counter_store)) "cart" = VUndefined.
Proof.
  pose proof (dispatch_touches_one_slice counter_store 1%positive counter_reducers
                inc (INC "count")) as H.
  simpl in H. destruct H as (H0 & H1 & H2 & _); [by split|reflexivity|reflexivity|].
  split; [exact H0|]. split; [exact H1|]. apply H2. discriminate.
Defined.

Lemma dispatch_all_mixed w l rs S r acts :
  configured w l rs -> rs !! S = Some r ->
  Forall (fun a => is_Some (rs !! slice a) /\ inherited (slice a) = false) acts ->
  exists w', dispatch_all acts w = (w', Returns tt) /\ configured w' l rs /\
             slice_value w' S
             = fold_left r (filter (fun a => slice a = S) acts) (slice_value w S).
Proof.
  intros Hw Hr Hacts. revert w Hw.
  induction Hacts as [|a acts [[ra Hra] Hplain] _ IH]; intros w Hw.
  - by exists w.
  - unfold dispatch_all; simpl. unfold bind.
    rewrite (dispatch_returns w l rs ra a Hw Hra Hplain).
    destruct (IH (dispatched ra a l w)) as (w' & Hrun & Hw' & Hv).
    { by eapply dispatched_configured. }
    exists w'. split; [exact Hrun|]. split; [done|]. rewrite Hv.
    destruct (decide (slice a = S)) as [Ha|Ha].
    + rewrite filter_cons_True by done. simpl. f_equal.
      assert (ra = r) as -> by (rewrite Ha in Hra; congruence).
      rewrite <- Ha. by eapply slice_value_dispatched_eq.
    + rewrite filter_cons_False by done. f_equal.
      by eapply slice_value_dispatched_ne.
Qed.

(** X6: dispatches on different slices do not interfere: after any
    sequence of actions on configured slices whose names are not members
    of [Object.prototype], [getState(S)] is the fold of the reducer of
    [S] over those actions of the sequence that name [S], in their order,
    starting from the value [S] had. *)
Theorem getState_folds_own_actions w l rs S r acts :
  configured w l rs ->
  rs !! S = Some r ->
  S <> "" ->
  Forall (fun a => is_Some (rs !! slice a) /\ inherited (slice a) = false) acts ->
  snd ((dispatch_all acts >> getState (Some S)) w)
  = Returns (fold_left r (filter (fun a => slice a = S) acts) (slice_value w S)).
Proof.
  intros Hw Hr HS Hacts.
  destruct (dispatch_all_mixed w l rs S r acts Hw Hr Hacts) as (w' & Hrun & Hw' & Hv).
  unfold bind. rewrite Hrun, (getState_slice w' l rs S Hw' HS); simpl. by rewrite Hv.
Qed.

Lemma getState_folds_own_actions_witness :
  snd ((dispatch_all [INC "count"; INC "total"; INC "count"] >> getState (Some "count"))
         (fst (configure (Some 1%positive)
                 (Some (<[ "total" := inc ]> counter_reducers))
                 (constructor counter_heap))))
  = Returns (VNum 2).
Proof.
  rewrite (getState_folds_own_actions _ 1%positive (<[ "total" := inc ]> counter_reducers)
             "count" inc).
  - reflexivity.
  - by split.
  - reflexivity.
  - discriminate.
  - repeat constructor; by eexists.
Defined.



(** X8: the store does not compare values: when the reducer returns the
    value it was given, every slice reads as before and the listeners of
    the slice are called all the same. *)
Theorem unchanged_value_still_notifies w l rs r a :
  configured w l rs ->
  rs !! slice a = Some r ->
  r (slice_value w (slice a)) a = slice_value w (slice a) ->
  (forall k, slice_value (fst (dispatch a w)) k = slice_value w k) /\
  notified a w = listeners_of w (slice a).
Proof.
  intros Hw Hr Hsame. split.
  - intros k. rewrite (dispatch_configured w l rs r a Hw Hr); simpl.
    destruct (decide (k = slice a)) as [->|Hk].
    + rewrite (slice_value_dispatched_eq w l rs r a Hw). exact Hsame.
    + by eapply slice_value_dispatched_ne.
  - by apply (notified_configured w l rs r a).
Qed.

Lemma unchanged_value_still_notifies_witness :
  notified (Action "count" "NOP" VUndefined)
    (fst (subscribe "count" 8%nat counter_store)) = [8%nat].
Proof.
  pose proof (unchanged_value_still_notifies
                (fst (subscribe "count" 8%nat counter_store)) 1%positive
                counter_reducers inc (Action "count" "NOP" VUndefined)) as H.
  destruct H as [_ H]; [by split|reflexivity|reflexivity|]. exact H.
Defined.

(** X9: [subscribe] does not look for duplicates: a callback subscribed
    twice to a slice whose name is not a member of [Object.prototype] is
    appended twice, after the listeners already there, and a dispatch
    calls it twice. *)
Theorem double_subscription_called_twice w l rs r a f :
  configured w l rs ->
  rs !! slice a = Some r ->
  inherited (slice a) = false ->
  let run := (subscribe (slice a) f >> subscribe (slice a) f) w in
  snd run = Returns (Unsubscriber (slice a) f) /\
  listeners (fst run) !! slice a = Some (listeners_of w (slice a) ++ [f; f]) /\
  notified a (fst run) = listeners_of w (slice a) ++ [f; f].
Proof.
  intros Hw Hr Ha. assert (Hc := cfg_flag _ _ _ Hw).
  set (w1 := set_listeners
               (<[slice a := default [] (listeners w !! slice a) ++ [f]]> (listeners w)) w).
  set (w2 := set_listeners
               (<[slice a := default [] (listeners w1 !! slice a) ++ [f]]> (listeners w1)) w1).
  assert (Hw1 : configured w1 l rs) by (destruct Hw; by split).
  assert (Hw2 : configured w2 l rs) by (destruct Hw1; by split).
  assert (Hrun : (subscribe (slice a) f >> subscribe (slice a) f) w
                 = (w2, Returns (Unsubscriber (slice a) f))).
  { unfold bind. rewrite (subscribe_ok w (slice a) f Hc Ha). fold w1.
    by rewrite (subscribe_ok w1 (slice a) f (cfg_flag _ _ _ Hw1) Ha). }
  assert (Hl2 : listeners w2 !! slice a = Some (listeners_of w (slice a) ++ [f; f])).
  { unfold w2, w1, listeners_of. destruct w; simpl.
    rewrite !lookup_insert_eq; simpl. by rewrite <- app_assoc. }
  cbv zeta. rewrite Hrun. cbn [fst snd]. split; [done|]. split; [exact Hl2|].
  by rewrite (notified_configured w2 l rs r a Hw2 Hr), Hl2.
Qed.

Lemma double_subscription_called_twice_witness :
  notified (INC "count")
    (fst ((subscribe "count" 6%nat >> subscribe "count" 6%nat) counter_store))
  = [6; 6]%nat.
Proof.
  apply (double_subscription_called_twice counter_store 1%positive counter_reducers
           inc (INC "count") 6%nat); [by split | reflexivity | reflexivity].
Defined.

(** X10: an unsubscribe closure removes its callback from its slice by
    identity, whenever it is called: a closure kept from an earlier
    subscription also cancels a later subscription of the same callback.
    On a slice whose name is not a member of [Object.prototype], after
    subscribing, cancelling, subscribing again and calling the first
    closure once more, the callback is not registered, and the other
    listeners of the slice are there in their old order. *)
Theorem stale_closure_cancels_later_subscription w sl f :
  isConfigured w = true ->
  inherited sl = false ->
  let w' := fst (resubscribe_then_stale_cancel sl f w) in
  snd (resubscribe_then_stale_cancel sl f w) = Returns tt /\
  listeners w' !! sl = Some (filter (fun g => g <> f) (listeners_of w sl)) /\
  (f ∉ listeners_of w' sl) /\
  (forall sl', sl' <> sl -> listeners w' !! sl' = listeners w !! sl').
Proof.
  intros Hc Hsl w'. unfold listeners_of.
  set (ls0 := default [] (listeners w !! sl)).
  set (kept := filter (fun g => g <> f) ls0).
  set (w1 := set_listeners (<[sl := ls0 ++ [f]]> (listeners w)) w).
  set (w2 := set_listeners (<[sl := kept]> (listeners w1)) w1).
  set (w3 := set_listeners (<[sl := kept ++ [f]]> (listeners w2)) w2).
  set (w4 := set_listeners (<[sl := kept]> (listeners w3)) w3).
  assert (Hdrop : forall ls, filter (fun g => g <> f) (ls ++ [f]) = filter (fun g => g <> f) ls).
  { intros ls. rewrite filter_app, filter_cons_False by (intros H; by apply H).
    by rewrite app_nil_r. }
  assert (E1 : subscribe sl f w = (w1, Returns (Unsubscriber sl f)))
    by (by rewrite subscribe_ok).
  assert (E2 : unsubscribe (Unsubscriber sl f) w1 = (w2, Returns tt)).
  { rewrite (unsubscribe_ok w1 sl f (ls0 ++ [f])).
    - by rewrite Hdrop.
    - unfold w1. destruct w; simpl. apply lookup_insert_eq. }
  assert (Hl2 : listeners w2 !! sl = Some kept)
    by (unfold w2; destruct w1; simpl; apply lookup_insert_eq).
  assert (E3 : subscribe sl f w2 = (w3, Returns (Unsubscriber sl f))).
  { rewrite subscribe_ok by (done || by destruct w). by rewrite Hl2. }
  assert (E4 : unsubscribe (Unsubscriber sl f) w3 = (w4, Returns tt)).
  { rewrite (unsubscribe_ok w3 sl f (kept ++ [f])).
    - rewrite Hdrop. unfold kept. by rewrite filter_ne_idemp.
    - unfold w3. destruct w2; simpl. apply lookup_insert_eq. }
  assert (Hrun : resubscribe_then_stale_cancel sl f w = (w4, Returns tt)).
  { unfold resubscribe_then_stale_cancel, bind.
    rewrite E1. cbv beta iota. rewrite E2. cbv beta iota.
    rewrite E3. cbv beta iota. by rewrite E4. }
  assert (Hl4 : listeners w4 !! sl = Some kept)
    by (unfold w4; destruct w3; simpl; apply lookup_insert_eq).
  unfold w'. rewrite Hrun. cbn [fst snd]. split; [done|]. split; [exact Hl4|]. split.
  - rewrite Hl4; simpl. intros Hin. by apply list_elem_of_filter in Hin as [Hne _].
  - intros sl' Hne. unfold w4, w3, w2, w1. destruct w; simpl.
    by rewrite !lookup_insert_ne.
Qed.

Lemma stale_closure_cancels_later_subscription_witness :
  listeners (fst (resubscribe_then_stale_cancel "count" 5%nat
                    (fst (subscribe "count" 4%nat counter_store)))) !! "count"
  = Some [4%nat].
Proof.
  pose proof (stale_closure_cancels_later_subscription
                (fst (subscribe "count" 4%nat counter_store)) "count" 5%nat) as H.
  simpl in H. destruct H as (_ & H & _); [reflexivity|reflexivity|]. exact H.
Defined.

(** X26: a dispatch that the store rejects changes nothing.  Before
    [configure] it throws the not-configured error; on a slice whose name
    is neither that of a reducer nor that of a member of
    [Object.prototype] it throws the reducer-not-found error; in both
    cases the world after the call is the world before it, so no slice
    has changed, nothing was logged and no listener was called. *)
Theorem dispatch_failure_atomic w a :
  (isConfigured w = false ->
     dispatch a w = (w, Throws NotConfigured) /\ notified a w = []) /\
  (forall rs, isConfigured w = true -> reducers w = Some rs ->
     rs !! slice a = None -> inherited (slice a) = false ->
     dispatch a w = (w, Throws (ReducerNotFound (slice a))) /\
     notified a w = []).
Proof.
  assert (Hn : forall e, dispatch a w = (w, Throws e) -> notified a w = []).
  { intros e He. unfold notified, emitted. rewrite He; simpl.
    by rewrite drop_all. }
  split.
  - intros Hc.
    assert (He : dispatch a w = (w, Throws NotConfigured)).
    { destruct w; simpl in *; by subst. }
    eauto.
  - intros rs Hc Hr Hra Ha.
    assert (He : dispatch a w = (w, Throws (ReducerNotFound (slice a)))).
    { destruct w; simpl in *; subst.
      unfold dispatch, bind, checkConfigured, get; simpl.
      by rewrite (lookup_member_absent _ _ Hra Ha). }
    eauto.
Qed.

Lemma dispatch_failure_atomic_witness :
  dispatch (INC "count") (constructor counter_heap)
    = (constructor counter_heap, Throws NotConfigured) /\
  dispatch (INC "cart") counter_store
    = (counter_store, Throws (ReducerNotFound "cart")).
Proof.
  split.
  - apply (dispatch_failure_atomic (constructor counter_heap) (INC "count")).
    reflexivity.
  - apply (dispatch_failure_atomic counter_store (INC "cart")) with counter_reducers;
      reflexivity.
Defined.

(** X27: [subscribe] on a name that is a member of [Object.prototype],
    on a store without a listener list of that name, registers nothing:
    the inherited member is found in place of a list, no list is created,
    and the call throws where the listener would be appended. *)
Theorem subscribe_inherited_name_registers_nothing w sl f :
  isConfigured w = true ->
  listeners w !! sl = None ->
  inherited sl = true ->
  subscribe sl f w = (w, Throws NotAFunction).
Proof. apply subscribe_inherited. Qed.

Lemma subscribe_inherited_name_registers_nothing_witness :
  subscribe "toString" 3%nat counter_store = (counter_store, Throws NotAFunction).
Proof.
  apply subscribe_inherited_name_registers_nothing; reflexivity.
Defined.

End StoreLaws.

(** ** Further properties of the composition engine and the router *)

Module EngineLaws.
Import Component ObjectFacts ComponentFacts.

(** *** Every failure looks the same to the caller *)

(** X12: whatever goes wrong inside [render] (configuration, fetch,
    parsing, a child), the caller gets the same error; the cause is only
    written to the console, as the last thing the failing render does, and
    the hook of the failing instance is not run. *)
Theorem render_failure_is_uniform env fuel name w e :
  snd (render env (S fuel) name w) = Throws e ->
  e = OutOfFuel \/
  (e = RenderError /\
   exists cause,
     cause <> OutOfFuel /\
     last (log (fst (render env (S fuel) name w)))
     = Some (ErrorLogged "Error fetching, parsing, or rendering template or styles:"
               cause)).
Proof.
  remember (render env (S fuel) name w) as res eqn:Hres.
  cbn [render] in Hres. unfold bind at 1, setup, try_catch in Hres.
  match type of Hres with
  | context [match ?m w with _ => _ end] => destruct (m w) as [w1 [el|cause]]
  end.
  - subst res. unfold bind, modify, ret; simpl. discriminate.
  - destruct cause; subst res; unfold bind, modify, throw; simpl; intros [= <-];
      first [by left | right; split; [done|]; eexists; split; [|apply last_snoc]; done].
Qed.

Lemma render_failure_is_uniform_witness :
  RenderError = OutOfFuel \/
  (RenderError = RenderError /\
   exists cause,
     cause <> OutOfFuel /\
     last (log (fst (render site_without_child 2 "Parent" fresh_page)))
     = Some (ErrorLogged "Error fetching, parsing, or rendering template or styles:"
               cause)).
Proof.
  apply (render_failure_is_uniform site_without_child 1 "Parent" fresh_page RenderError).
  reflexivity.
Defined.

(** *** What a render never touches *)

(** X13: the engine never manages the mount point or the router: whatever
    its outcome, a render leaves the mounted content, the root element,
    the location and the route table as they were. *)
Theorem render_leaves_page_alone env fuel name w :
  let w' := fst (render env fuel name w) in
  mounted w' = mounted w /\ rootElementId w' = rootElementId w /\
  hash w' = hash w /\ routes w' = routes w.
Proof.
  intros w'. destruct (steps_render env fuel name w). by repeat split.
Qed.

(** X14: a render only adds: the style elements in the head before it are
    still there after it, in place and with their text (so the styles of a
    type already registered are never replaced), a cached configuration is
    kept, and the log is extended, never rewritten. *)
Theorem render_only_adds env fuel name w :
  let w' := fst (render env fuel name w) in
  head w `prefix_of` head w' /\
  log w `prefix_of` log w' /\
  (forall c, config w = Some c -> config w' = Some c) /\
  (forall id css, (id, css) ∈ head w -> (id, css) ∈ head w').
Proof.
  intros w'. subst w'.
  destruct (steps_render env fuel name w) as [Hlog Hhead _ Hcfg _ _ _ _].
  repeat split; try done.
  intros id css Hin. destruct Hhead as [k Hk]. rewrite Hk. apply elem_of_app. by left.
Qed.

(** *** The configuration is requested once *)

Lemma config_requests_app t1 t2 :
  config_requests (t1 ++ t2) = config_requests t1 + config_requests t2.
Proof. unfold config_requests. by rewrite List.filter_app, length_app. Qed.

Lemma calm_refl w : calm w w.
Proof. by split. Qed.

Lemma calm_trans w1 w2 w3 : calm w1 w2 -> calm w2 w3 -> calm w1 w3.
Proof.
  intros [Hc1 Hr1] [Hc2 Hr2]. split; [auto|].
  intros H. rewrite Hr2 by auto. auto.
Qed.

Lemma calm_emit e w : is_config_request e = false -> calm w (emit e w).
Proof.
  intros He. split; [done|]. intros _. simpl.
  rewrite config_requests_app. unfold config_requests at 2; simpl. rewrite He; simpl. lia.
Qed.

Lemma calm_set_head h w : calm w (set_head h w).
Proof. by split. Qed.

Lemma calmly_ret {A} (a : A) : calmly (ret a).
Proof. intros w. apply calm_refl. Qed.

Lemma calmly_throw {A} e : calmly (throw (A := A) e).
Proof. intros w. apply calm_refl. Qed.

Lemma calmly_emit e : is_config_request e = false -> calmly (modify (emit e)).
Proof. intros He w. by apply calm_emit. Qed.

Lemma calmly_bind {A B} (m : M A) (k : A -> M B) :
  calmly m -> (forall a, calmly (k a)) -> calmly (bind m k).
Proof.
  intros Hm Hk w. unfold bind. specialize (Hm w).
  destruct (m w) as [w1 [a|e]]; [|done].
  eapply calm_trans; [exact Hm|apply Hk].
Qed.

Lemma calmly_try_catch {A} (m : M A) (h : error -> M A) :
  calmly m -> (forall e, calmly (h e)) -> calmly (try_catch m h).
Proof.
  intros Hm Hh w. unfold try_catch. specialize (Hm w).
  destruct (m w) as [w1 [a|e]]; [done|].
  eapply calm_trans; [exact Hm|apply Hh].
Qed.

Lemma calmly_map_js {A B} (f : A -> M B) (xs : list A) :
  Forall (fun x => calmly (f x)) xs -> calmly (map_js f xs).
Proof.
  induction 1 as [|x xs Hx _ IH]; simpl; [apply calmly_ret|].
  apply calmly_bind; [done|]. intros y.
  apply calmly_bind; [done|]. intros ys. apply calmly_ret.
Qed.

Lemma last_ascii_append s t : t <> "" -> last_ascii (String.append s t) = last_ascii t.
Proof.
  intros Ht. induction s as [|a s IH]; [done|].
  simpl. rewrite IH. destruct (String.append s t) eqn:E; [|done].
  destruct s; simpl in E; [done|discriminate].
Qed.

Lemma file_path_not_config d name :
  is_config_request (Fetch (file_path d name ".html")) = false /\
  is_config_request (Fetch (file_path d name ".css")) = false.
Proof.
  assert (H : forall ext, ext <> "" ->
                last_ascii ext <> last_ascii "./JamoComponentsConfig.json" ->
                is_config_request (Fetch (file_path d name ext)) = false).
  { intros ext Hext Hlast. simpl. apply String.eqb_neq. intros Heq.
    apply Hlast. rewrite <- Heq. unfold file_path.
    rewrite last_ascii_append by (destruct name, ext; done).
    by rewrite last_ascii_append. }
  split; apply H; done.
Qed.

Section CalmEngine.
Variable env : environment.

Lemma calmly_loadConfig : calmly (loadConfig env).
Proof.
  intros w. unfold loadConfig, bind at 1, get.
  destruct (config w) eqn:Hc; [apply calm_refl|].
  split; intros [c Hsome]; congruence.
Qed.

Lemma setPaths_paths name w w' tp sp :
  setPaths env name w = (w', Returns (tp, sp)) ->
  exists d, tp = file_path d name ".html" /\ sp = file_path d name ".css".
Proof.
  unfold setPaths, bind at 1, get. unfold bind at 1.
  destruct ((if config w is Some _ then ret tt else loadConfig env) w) as [w1 [[]|e]];
    [|discriminate].
  unfold bind, get. destruct (config w1) as [dirs|]; [|discriminate].
  cbv zeta. destruct (falsy (lookup_member dirs name)); [discriminate|].
  intros [= _ <- <-]. by exists (js_string name (lookup_member dirs name)).
Qed.

Lemma calmly_setPaths name : calmly (setPaths env name).
Proof.
  intros w. unfold setPaths. unfold bind at 1, get.
  apply (calmly_bind _ _); [|intros _].
  - destruct (config w); [apply calmly_ret|apply calmly_loadConfig].
  - intros w1. unfold bind, get. destruct (config w1) as [dirs|]; [|apply calm_refl].
    cbv zeta. destruct (falsy (lookup_member dirs name)); apply calm_refl.
Qed.

Lemma calmly_fetchTemplateAndStyles d name :
  calmly (fetchTemplateAndStyles env (file_path d name ".html") (file_path d name ".css")).
Proof.
  destruct (file_path_not_config d name) as [Ht Hs].
  apply calmly_try_catch.
  - apply calmly_bind; [by apply calmly_emit|]. intros _.
    apply calmly_bind.
    + apply calmly_emit. by destruct (String.eqb (file_path d name ".css") "").
    + intros _.
      destruct (fetch_text env (file_path d name ".html")),
               (fetch_text env (file_path d name ".css"));
        first [apply calmly_ret | apply calmly_throw].
  - intros e. apply calmly_bind; [by apply calmly_emit|]. intros _.
    apply calmly_throw.
Qed.

Lemma calmly_applyStyles name css : calmly (applyStyles name css).
Proof.
  intros w. unfold applyStyles, bind, get.
  destruct (getElementById w _); [apply calm_refl|apply calm_set_head].
Qed.

Section CalmNested.
Variable render_instance : string -> M node.
Hypothesis calmly_instance : forall c, calmly (render_instance c).

Lemma calmly_renderPlaceholder c : calmly (renderPlaceholder env render_instance c).
Proof.
  intros w. unfold renderPlaceholder, bind at 1, get.
  destruct (config w) as [dirs|]; [|apply calm_refl].
  apply (calmly_bind _ _); [by apply calmly_emit|]. intros _.
  destruct (import_class env _); [apply calmly_instance|apply calmly_throw].
Qed.

Lemma calmly_resolve n : calmly (resolve env render_instance n).
Proof.
  induction n as [s|tag attrs kids IH] using node_ind; simpl.
  - apply calmly_ret.
  - assert (Hkids : calmly (map_js (resolve env render_instance) kids))
      by (by apply calmly_map_js).
    destruct (attribute "data-component" attrs) as [c|].
    + destruct (String.eqb c "").
      * apply calmly_bind; [done|]. intros ?. apply calmly_ret.
      * apply calmly_bind; [apply calmly_renderPlaceholder|]. intros ?.
        apply calmly_bind; [done|]. intros ?. apply calmly_ret.
    + apply calmly_bind; [done|]. intros ?. apply calmly_ret.
Qed.

Lemma calmly_renderNestedComponents element :
  calmly (renderNestedComponents env render_instance element).
Proof.
  destruct element as [[s|tag attrs kids]|]; simpl; try apply calmly_throw.
  apply calmly_bind; [|intros ?; apply calmly_ret].
  apply calmly_map_js, Forall_forall. intros n _. apply calmly_resolve.
Qed.

Lemma calmly_setup name : calmly (setup env render_instance name).
Proof.
  assert (Hcatch : forall e, calmly (A := node)
            match e with
            | OutOfFuel => throw OutOfFuel
            | _ => modify (emit (ErrorLogged
                     "Error fetching, parsing, or rendering template or styles:" e))
                   >> throw RenderError
            end).
  { intros e. destruct e; try apply calmly_throw;
      (apply calmly_bind; [by apply calmly_emit|]; intros _; apply calmly_throw). }
  intros w. unfold setup, try_catch. unfold bind at 1.
  pose proof (calmly_setPaths name w) as Hpaths.
  destruct (setPaths env name w) as [w1 [[tp sp]|e]] eqn:Eq; simpl in Hpaths.
  - apply setPaths_paths in Eq as (d & -> & ->).
    assert (Hrest : calmly
              (let* (template, styles) :=
                 fetchTemplateAndStyles env (file_path d name ".html")
                   (file_path d name ".css") in
               applyStyles name styles >>
               renderNestedComponents env render_instance (parseHTML env template))).
    { apply calmly_bind; [apply calmly_fetchTemplateAndStyles|]. intros [t css].
      apply calmly_bind; [apply calmly_applyStyles|]. intros _.
      apply calmly_renderNestedComponents. }
    specialize (Hrest w1). cbv beta in Hrest.
    destruct (bind (fetchTemplateAndStyles env _ _) _ w1) as [w2 [el|e]]; simpl in Hrest.
    + by eapply calm_trans.
    + eapply calm_trans; [exact Hpaths|]. eapply calm_trans; [exact Hrest|].
      apply (Hcatch e w2).
  - eapply calm_trans; [exact Hpaths|]. apply (Hcatch e w1).
Qed.
End CalmNested.

Lemma calmly_render fuel name : calmly (render env fuel name).
Proof.
  revert name. induction fuel as [|fuel IH]; intros name; simpl.
  - apply calmly_throw.
  - apply calmly_bind; [by apply calmly_setup|]. intros e.
    apply calmly_bind; [by apply calmly_emit|]. intros _. apply calmly_ret.
Qed.

Lemma emitted_render_cached fuel name w :
  is_Some (config w) -> config_requests (emitted (render env fuel name) w) = 0.
Proof.
  intros Hc. unfold emitted.
  destruct (calmly_render fuel name w) as [_ Hreq]. specialize (Hreq Hc).
  destruct (ev_log _ _ (steps_render env fuel name w)) as [t Ht].
  rewrite Ht in *. rewrite drop_app_length.
  rewrite config_requests_app in Hreq. lia.
Qed.

Lemma setPaths_after_loading name w c :
  config w = None -> config_file env = Some c ->
  setPaths env name w = setPaths env name (loaded env w).
Proof.
  intros Hc Hfile.
  assert (Hd : directory env w = Some c) by (unfold directory; by rewrite Hc).
  assert (Hl : config (loaded env w) = Some c) by (by apply config_loaded).
  unfold setPaths, bind, get. rewrite Hc, Hl.
  rewrite (loadConfig_directory env w c Hd Hc). unfold ret. by rewrite Hl.
Qed.

Lemma render_after_loading fuel name w c :
  config w = None -> config_file env = Some c ->
  render env (S fuel) name w = render env (S fuel) name (loaded env w).
Proof.
  intros Hc Hfile. cbn [render]. unfold setup, try_catch, bind.
  by rewrite (setPaths_after_loading name w c Hc Hfile).
Qed.
End CalmEngine.

(** X15: the configuration file is requested lazily and at most once: a
    render requests it at most one time, and not at all when it is already
    cached, however many components the render goes through. *)
Theorem configuration_requested_at_most_once env fuel name w :
  config_requests (emitted (render env fuel name) w) <= 1 /\
  (is_Some (config w) -> config_requests (emitted (render env fuel name) w) = 0).
Proof.
  split; [|apply emitted_render_cached].
  destruct (config w) as [c0|] eqn:Hc.
  { rewrite emitted_render_cached; [lia|]. rewrite Hc. eauto. }
  destruct fuel as [|fuel].
  { unfold emitted; simpl. rewrite drop_all. by vm_compute; lia. }
  destruct (config_file env) as [c|] eqn:Hfile.
  - unfold emitted. rewrite (render_after_loading env fuel name w c Hc Hfile).
    assert (Hl : is_Some (config (loaded env w))).
    { rewrite (config_loaded env w c); [eauto|]. unfold directory. by rewrite Hc. }
    pose proof (emitted_render_cached env (S fuel) name (loaded env w) Hl) as Hzero.
    unfold emitted in Hzero.
    destruct (ev_log _ _ (steps_render env (S fuel) name (loaded env w))) as [t Ht].
    rewrite Ht in *. rewrite drop_app_length in Hzero.
    unfold loaded. rewrite Hc; simpl. rewrite <- app_assoc, drop_app_length.
    rewrite config_requests_app. unfold config_requests at 1; simpl. lia.
  - unfold emitted. cbn [render]. unfold bind at 1, setup, try_catch. unfold bind at 1.
    unfold setPaths, bind at 1, get. unfold bind at 1. rewrite Hc.
    unfold loadConfig, bind at 1, get. rewrite Hc. unfold try_catch, bind at 1, modify.
    rewrite Hfile. simpl. rewrite <- !app_assoc, drop_app_length. by vm_compute.
Qed.

Lemma configuration_requested_at_most_once_witness :
  config_requests (emitted (render site 2 "Parent") fresh_page) <= 1 /\
  config_requests
    (emitted (render site 2 "Parent") (fst (render site 2 "Parent" fresh_page))) = 0.
Proof.
  split.
  - apply (configuration_requested_at_most_once site 2 "Parent" fresh_page).
  - apply (configuration_requested_at_most_once site 2 "Parent"). simpl. eauto.
Defined.

(** *** Renders that succeed and renders that fail *)

Section Files.
Variable env : environment.

Lemma setup_files render_instance name w dirs d t css :
  directory env w = Some dirs ->
  files env dirs name d t css ->
  setup env render_instance name w
  = try_catch (renderNestedComponents env render_instance (parseHTML env t)) setup_catch
      (styled name css (fetched d name (loaded env w))).
Proof.
  intros Hd [Hname Hne Ht Hcss].
  unfold setup, try_catch. unfold bind at 1.
  rewrite (setPaths_available env name w dirs d Hd Hname Hne).
  unfold bind at 1.
  rewrite (fetchTemplateAndStyles_available env _ _ t css _ Ht Hcss).
  unfold bind at 1, applyStyles, bind at 1, get, styled, fetched, file_path.
  by destruct (getElementById _ (String.append name "-styles")).
Qed.

Lemma setPaths_rejected name w dirs :
  directory env w = Some dirs ->
  (dirs !! name = None /\ inherited name = false) \/ dirs !! name = Some "" ->
  setPaths env name w = (loaded env w, Throws (ConfigurationNotFound name)).
Proof.
  intros Hd [[Hname Hplain]|Hname];
    [by apply (setPaths_unconfigured env name w dirs)|].
  rewrite (setPaths_loaded env name w dirs Hd).
  by rewrite (lookup_member_own _ _ _ Hname).
Qed.

Lemma log_loaded w :
  log (loaded env w)
  = log w ++ (if config w is Some _ then [] else [Fetch "./JamoComponentsConfig.json"]).
Proof. unfold loaded. destruct (config w); simpl; by rewrite ?app_nil_r. Qed.

Lemma log_styled name css w : log (styled name css w) = log w.
Proof. unfold styled. by destruct (getElementById w _). Qed.

Lemma render_files_plain fuel name w dirs d t css tag attrs kids :
  directory env w = Some dirs ->
  files env dirs name d t css ->
  parseHTML env t = Some (Element tag attrs kids) ->
  Forall plain kids ->
  render env (S fuel) name w
  = (rendered_leaf d name css (loaded env w), Returns (Element tag attrs kids)).
Proof.
  intros Hd Hfiles Hparse Hkids. cbn [render]. unfold bind at 1.
  rewrite (setup_files _ name w dirs d t css Hd Hfiles), Hparse.
  unfold try_catch. cbn [renderNestedComponents]. unfold bind at 1.
  by rewrite resolve_all_plain.
Qed.
End Files.

(** X16: rendering a component whose template has no placeholder below
    its root element returns exactly the parsed root element (a
    [data-component] attribute on the root itself is not looked at), and
    the only things it does are to load the configuration if needed,
    request the two files, apply the styles and run the hook. *)
Theorem render_without_placeholders env fuel name w dirs d t css tag attrs kids :
  directory env w = Some dirs ->
  files env dirs name d t css ->
  parseHTML env t = Some (Element tag attrs kids) ->
  Forall plain kids ->
  render env (S fuel) name w
  = (rendered_leaf d name css (loaded env w), Returns (Element tag attrs kids)) /\
  emitted (render env (S fuel) name) w
  = (if config w is Some _ then [] else [Fetch "./JamoComponentsConfig.json"])
    ++ leaf_events d name.
Proof.
  intros Hd Hfiles Hparse Hkids.
  pose proof (render_files_plain env fuel name w dirs d t css tag attrs kids
                Hd Hfiles Hparse Hkids) as Hrun.
  split; [exact Hrun|]. unfold emitted. rewrite Hrun.
  unfold rendered_leaf, fetched; simpl. rewrite log_styled; simpl.
  rewrite log_loaded, <- !app_assoc. by rewrite drop_app_length.
Qed.

Lemma render_without_placeholders_witness :
  render site 1 "Child" fresh_page
  = (rendered_leaf "components/Child/" "Child" ".child{}" (loaded site fresh_page),
     Returns (Element "p" [] [Text "hi"])).
Proof.
  apply (render_without_placeholders site 0 "Child" fresh_page site_directory
           "components/Child/" "<p>hi</p>" ".child{}" "p" [] [Text "hi"]).
  - reflexivity.
  - split; first [reflexivity | discriminate].
  - reflexivity.
  - by repeat constructor.
Defined.

(** X17: a component counts as not configured when its directory entry is
    the empty string, and when it has no entry and its name is not a member
    of [Object.prototype]: in both cases the render fails after at most
    loading the configuration, without requesting the template or the
    styles. *)
Theorem render_rejects_missing_or_empty_directory env fuel name w dirs :
  directory env w = Some dirs ->
  (dirs !! name = None /\ inherited name = false) \/ dirs !! name = Some "" ->
  render env (S fuel) name w
  = (emit (ErrorLogged "Error fetching, parsing, or rendering template or styles:"
             (ConfigurationNotFound name)) (loaded env w),
     Throws RenderError).
Proof.
  intros Hd Hname. cbn [render]. unfold setup, try_catch, bind.
  by rewrite (setPaths_rejected env name w dirs Hd Hname).
Qed.

Lemma render_rejects_missing_or_empty_directory_witness :
  snd (render (Environment (Some {[ "Home" := "" ]}) site_fetch site_import site_parse)
         1 "Home" fresh_page) = Throws RenderError.
Proof.
  rewrite (render_rejects_missing_or_empty_directory _ 0 "Home" fresh_page
             {[ "Home" := "" ]}); [reflexivity|reflexivity|].
  right. reflexivity.
Defined.

(** X18: when the configuration cannot be loaded the render fails, with
    two lines on the console, and nothing is cached: the configuration is
    still absent afterwards, so the next render requests the file again. *)
Theorem failed_configuration_load_is_not_cached env fuel name w :
  config w = None ->
  config_file env = None ->
  render env (S fuel) name w
  = (emit (ErrorLogged "Error fetching, parsing, or rendering template or styles:"
             ConfigurationLoadError)
       (emit (ErrorLogged "Error loading configuration:" NetworkError)
          (emit (Fetch "./JamoComponentsConfig.json") w)),
     Throws RenderError) /\
  config (fst (render env (S fuel) name w)) = None.
Proof.
  intros Hc Hfile.
  assert (Hrun : render env (S fuel) name w
                 = (emit (ErrorLogged
                            "Error fetching, parsing, or rendering template or styles:"
                            ConfigurationLoadError)
                      (emit (ErrorLogged "Error loading configuration:" NetworkError)
                         (emit (Fetch "./JamoComponentsConfig.json") w)),
                    Throws RenderError)).
  { cbn [render]. unfold setup, setPaths, loadConfig, try_catch, bind, get, modify.
    cbv beta iota. rewrite Hc. cbv beta iota. rewrite Hc.
    unfold throw. cbv beta iota. rewrite Hfile. reflexivity. }
  split; [exact Hrun|]. by rewrite Hrun.
Qed.

Lemma failed_configuration_load_is_not_cached_witness :
  config (fst (render (Environment None site_fetch site_import site_parse)
                 1 "Parent" fresh_page)) = None.
Proof.
  apply (failed_configuration_load_is_not_cached
           (Environment None site_fetch site_import site_parse) 0 "Parent" fresh_page);
    reflexivity.
Defined.

(** X19: when the request for the template or for the styles is rejected,
    both requests have been issued all the same, the render fails with two
    lines on the console, and no style element was added. *)
Theorem rejected_fetch_fails_render env fuel name w dirs d :
  directory env w = Some dirs ->
  dirs !! name = Some d ->
  d <> "" ->
  fetch_text env (file_path d name ".html") = None \/
  fetch_text env (file_path d name ".css") = None ->
  render env (S fuel) name w
  = (emit (ErrorLogged "Error fetching, parsing, or rendering template or styles:"
             FetchError)
       (emit (ErrorLogged "Error fetching template or styles:" NetworkError)
          (fetched d name (loaded env w))),
     Throws RenderError) /\
  head (fst (render env (S fuel) name w)) = head w.
Proof.
  intros Hd Hname Hne Hfetch.
  assert (Hrun : render env (S fuel) name w
                 = (emit (ErrorLogged
                            "Error fetching, parsing, or rendering template or styles:"
                            FetchError)
                      (emit (ErrorLogged "Error fetching template or styles:" NetworkError)
                         (fetched d name (loaded env w))),
                    Throws RenderError)).
  { assert (Hfail : forall u,
              fetchTemplateAndStyles env (file_path d name ".html")
                (file_path d name ".css") u
              = (emit (ErrorLogged "Error fetching template or styles:" NetworkError)
                   (fetched d name u), Throws FetchError)).
    { intros u. unfold fetchTemplateAndStyles, try_catch, bind, modify, fetched.
      unfold file_path in *.
      destruct (String.eqb_spec (String.append d (String.append name ".css")) "")
        as [Heq|_].
      - rewrite Heq in *.
        destruct Hfetch as [Hf|Hf]; rewrite Hf; [done|].
        by destruct (fetch_text env (String.append d (String.append name ".html"))).
      - destruct Hfetch as [Hf|Hf]; rewrite Hf; [done|].
        by destruct (fetch_text env (String.append d (String.append name ".html"))). }
    cbn [render]. unfold setup, try_catch, bind.
    rewrite (setPaths_available env name w dirs d Hd Hname Hne).
    fold (file_path d name ".html") (file_path d name ".css").
    by rewrite Hfail. }
  split; [exact Hrun|]. rewrite Hrun. simpl. unfold loaded. by destruct (config w).
Qed.

Lemma rejected_fetch_fails_render_witness :
  snd (render (Environment (Some site_directory) (fun _ => None) site_import site_parse)
         1 "Child" fresh_page) = Throws RenderError.
Proof.
  destruct (rejected_fetch_fails_render
              (Environment (Some site_directory) (fun _ => None) site_import site_parse)
              0 "Child" fresh_page site_directory "components/Child/") as [H _].
  - reflexivity.
  - reflexivity.
  - discriminate.
  - by left.
  - by rewrite H.
Defined.

(** X20: the styles are applied before the template is looked at: when
    the template has no element as its first node (it is empty, or starts
    with text), the render fails, but the style element of the component
    is in the document afterwards. *)
Theorem styles_outlive_failed_render env fuel name w dirs d t css :
  directory env w = Some dirs ->
  files env dirs name d t css ->
  parseHTML env t = None \/ (exists s, parseHTML env t = Some (Text s)) ->
  render env (S fuel) name w
  = (emit (ErrorLogged "Error fetching, parsing, or rendering template or styles:"
             TypeError)
       (styled name css (fetched d name (loaded env w))),
     Throws RenderError) /\
  getElementById (fst (render env (S fuel) name w)) (String.append name "-styles") = true.
Proof.
  intros Hd Hfiles Hparse.
  assert (Hrun : render env (S fuel) name w
                 = (emit (ErrorLogged
                            "Error fetching, parsing, or rendering template or styles:"
                            TypeError)
                      (styled name css (fetched d name (loaded env w))),
                    Throws RenderError)).
  { cbn [render]. unfold bind at 1.
    rewrite (setup_files env _ name w dirs d t css Hd Hfiles).
    by destruct Hparse as [->|[s ->]]. }
  split; [exact Hrun|]. rewrite Hrun.
  change (getElementById (emit ?e ?u) ?i) with (getElementById u i).
  apply getElementById_styled_same.
Qed.

Lemma styles_outlive_failed_render_witness :
  getElementById
    (fst (render (Environment (Some site_directory) (fun _ => Some "plain text")
                    site_import site_parse) 1 "Child" fresh_page))
    "Child-styles" = true.
Proof.
  apply (styles_outlive_failed_render
           (Environment (Some site_directory) (fun _ => Some "plain text")
              site_import site_parse)
           0 "Child" fresh_page site_directory "components/Child/"
           "plain text" "plain text").
  - reflexivity.
  - split; first [reflexivity | discriminate].
  - right. by exists "plain text".
Defined.

(** *** Routing to a known key *)

Lemma loadPage_mounts env fuel page w w1 e :
  render env fuel page (set_mounted [] w) = (w1, Returns e) ->
  loadPage env fuel page w = (set_mounted [e] w1, Returns tt).
Proof.
  intros Hrender. unfold loadPage, bind, modify, get. rewrite Hrender.
  pose proof (ev_mounted _ _ (steps_render env fuel page (set_mounted [] w))) as Hm.
  rewrite Hrender in Hm. simpl in Hm. by rewrite Hm.
Qed.

(** X21: when the location is a key of the route table and the render of
    its component succeeds, the root element holds the rendered element
    and nothing else: what was mounted before is gone, not appended to. *)
Theorem handleRouting_replaces_content env fuel w page w1 e :
  routes w !! hash w = Some page ->
  render env fuel page (set_mounted [] w) = (w1, Returns e) ->
  handleRouting env fuel w = (set_mounted [e] w1, Returns tt) /\
  mounted (fst (handleRouting env fuel w)) = [e].
Proof.
  intros Hroute Hrender.
  assert (Hrun : handleRouting env fuel w = (set_mounted [e] w1, Returns tt)).
  { unfold handleRouting, bind at 1, get. rewrite Hroute. unfold try_catch.
    by rewrite (loadPage_mounts env fuel page w w1 e Hrender). }
  split; [exact Hrun|]. by rewrite Hrun.
Qed.

Lemma handleRouting_replaces_content_witness :
  mounted (fst (handleRouting site 2 (set_hash "#/x" fresh_page)))
  = [Element "div" [] [Element "p" [] [Text "hi"]; Element "p" [] [Text "hi"]]].
Proof.
  destruct (handleRouting_replaces_content site 2 (set_hash "#/x" fresh_page) "Parent"
              (fst (render site 2 "Parent" (set_mounted [] (set_hash "#/x" fresh_page))))
              (Element "div" [] [Element "p" [] [Text "hi"]; Element "p" [] [Text "hi"]]))
    as [_ H]; [reflexivity|by vm_compute|]. exact H.
Defined.

(** X22: when the render of the routed component fails, the root element
    has already been cleared and stays empty: the previous content is
    lost, nothing is mounted, and [handleRouting] itself returns normally,
    the rejection being left unhandled. *)
Theorem handleRouting_failure_leaves_blank_page env fuel w page :
  routes w !! hash w = Some page ->
  snd (render env fuel page (set_mounted [] w)) = Throws RenderError ->
  handleRouting env fuel w
  = (emit (UnhandledRejection RenderError)
       (fst (render env fuel page (set_mounted [] w))), Returns tt) /\
  mounted (fst (handleRouting env fuel w)) = [].
Proof.
  intros Hroute Hfail.
  assert (Hrun : handleRouting env fuel w
                 = (emit (UnhandledRejection RenderError)
                      (fst (render env fuel page (set_mounted [] w))), Returns tt)).
  { unfold handleRouting, bind at 1, get. rewrite Hroute.
    unfold try_catch, loadPage, bind, modify.
    destruct (render env fuel page (set_mounted [] w)) as [w1 res]; simpl in *.
    by rewrite Hfail. }
  split; [exact Hrun|]. rewrite Hrun; simpl.
  by rewrite (ev_mounted _ _ (steps_render env fuel page (set_mounted [] w))).
Qed.

Lemma handleRouting_failure_leaves_blank_page_witness :
  mounted (fst (handleRouting site_without_child 2 (set_hash "#/x" fresh_page))) = [].
Proof.
  apply (handleRouting_failure_leaves_blank_page site_without_child 2
           (set_hash "#/x" fresh_page) "Parent"); by vm_compute.
Defined.

(** X23: constructing the application always reports an invalid path and
    mounts nothing, whatever the location is: the constructor routes the
    current location while the route table is still empty. *)
Theorem new_App_reports_invalid_path env fuel w :
  new_App env fuel w = (emit (InvalidPath (hash w)) (set_routes ∅ w), Returns tt) /\
  mounted (fst (new_App env fuel w)) = mounted w /\
  emitted (new_App env fuel) w = [InvalidPath (hash w)].
Proof.
  assert (Hrun : new_App env fuel w
                 = (emit (InvalidPath (hash w)) (set_routes ∅ w), Returns tt)).
  { unfold new_App, handleRouting, bind, modify, get; simpl.
    by rewrite lookup_empty. }
  split; [exact Hrun|]. unfold emitted. rewrite Hrun; simpl.
  split; [done|]. by rewrite drop_app_length.
Qed.

(** X24: registering a second component under a key replaces the first
    without notice: the table holds the second one, and routing to the key
    renders and mounts the second one. *)
Theorem last_route_registration_wins env fuel w path first second w1 e :
  hash w = path ->
  let w2 := fst (addRoute_twice path first second w) in
  render env fuel second (set_mounted [] w2) = (w1, Returns e) ->
  routes w2 = <[path := second]> (routes w) /\
  handleRouting env fuel w2 = (set_mounted [e] w1, Returns tt).
Proof.
  intros Hhash w2 Hrender.
  assert (Hw2 : w2 = set_routes (<[path := second]> (routes w)) w).
  { unfold w2, addRoute_twice, addRoute, bind, get, modify; simpl.
    unfold set_routes; simpl. by rewrite insert_insert_eq. }
  split; [by rewrite Hw2|].
  unfold handleRouting, bind at 1, get.
  assert (Hroute : routes w2 !! hash w2 = Some second).
  { rewrite Hw2; simpl. rewrite Hhash. apply lookup_insert_eq. }
  rewrite Hroute. unfold try_catch.
  by rewrite (loadPage_mounts env fuel second w2 w1 e Hrender).
Qed.

Lemma last_route_registration_wins_witness :
  mounted (fst (handleRouting site 1
                  (fst (addRoute_twice "#/x" "Parent" "Child" (set_hash "#/x" fresh_page)))))
  = [Element "p" [] [Text "hi"]].
Proof.
  pose proof (last_route_registration_wins site 1 (set_hash "#/x" fresh_page)
                "#/x" "Parent" "Child"
                (fst (render site 1 "Child"
                        (set_mounted []
                           (fst (addRoute_twice "#/x" "Parent" "Child"
                                   (set_hash "#/x" fresh_page))))))
                (Element "p" [] [Text "hi"])) as H.
  destruct H as [_ H]; [reflexivity|by vm_compute|]. by rewrite H.
Defined.

(** *** Rendering again *)

(** X25: nothing but the configuration and the style element is kept
    between renders: rendering a component without placeholders a second
    time requests its template and its styles again, runs the hook again
    and returns the same element, while the head stays as the first
    render left it. *)
Theorem second_render_fetches_again env fuel name w dirs d t css tag attrs kids :
  directory env w = Some dirs ->
  files env dirs name d t css ->
  parseHTML env t = Some (Element tag attrs kids) ->
  Forall plain kids ->
  let w1 := fst (render env (S fuel) name w) in
  snd (render env (S fuel) name w1) = Returns (Element tag attrs kids) /\
  emitted (render env (S fuel) name) w1 = leaf_events d name /\
  head (fst (render env (S fuel) name w1)) = head w1.
Proof.
  intros Hd Hfiles Hparse Hkids w1.
  assert (Hw1 : w1 = rendered_leaf d name css (loaded env w)).
  { unfold w1.
    by rewrite (render_files_plain env fuel name w dirs d t css tag attrs kids). }
  assert (Hc1 : config w1 = Some dirs).
  { rewrite Hw1. unfold rendered_leaf; simpl. rewrite config_styled; simpl.
    by apply config_loaded. }
  assert (Hd1 : directory env w1 = Some dirs) by (unfold directory; by rewrite Hc1).
  assert (Hl1 : loaded env w1 = w1) by (unfold loaded; by rewrite Hc1).
  assert (Hid1 : getElementById w1 (String.append name "-styles") = true).
  { rewrite Hw1. unfold rendered_leaf.
    change (getElementById (emit ?ev ?u) ?i) with (getElementById u i).
    apply getElementById_styled_same. }
  rewrite (render_files_plain env fuel name w1 dirs d t css tag attrs kids
             Hd1 Hfiles Hparse Hkids).
  unfold emitted.
  rewrite (render_files_plain env fuel name w1 dirs d t css tag attrs kids
             Hd1 Hfiles Hparse Hkids).
  rewrite Hl1. cbn [fst snd]. split; [done|].
  assert (Hstyled : styled name css (fetched d name w1) = fetched d name w1).
  { unfold styled.
    change (getElementById (fetched ?dd ?n ?u) ?i) with (getElementById u i).
    by rewrite Hid1. }
  unfold rendered_leaf. rewrite Hstyled. split.
  - unfold fetched; simpl. rewrite <- !app_assoc. by rewrite drop_app_length.
  - done.
Qed.

Lemma second_render_fetches_again_witness :
  emitted (render site 1 "Child") (fst (render site 1 "Child" fresh_page))
  = leaf_events "components/Child/" "Child".
Proof.
  pose proof (second_render_fetches_again site 0 "Child" fresh_page site_directory
                "components/Child/" "<p>hi</p>" ".child{}" "p" [] [Text "hi"]) as H.
  simpl in H. destruct H as (_ & H & _).
  - reflexivity.
  - split; first [reflexivity | discriminate].
  - reflexivity.
  - by repeat constructor.
  - exact H.
Defined.

End EngineLaws.

(** ** The order in which placeholders are resolved *)

Module ResolutionOrder.
Import Component ObjectFacts ComponentFacts EngineLaws.

Section InTurn.
Variable env : environment.

Lemma effect_placeholderLoop fuel names w :
  effect (placeholderLoop env (render env fuel) names) w
  = resolved_in_turn env fuel names w.
Proof.
  revert w. induction names as [|c rest IH]; intros w; [done|].
  unfold placeholderLoop in *. cbn [for_of resolved_in_turn].
  unfold effect in *.
  unfold bind at 1. unfold bind at 1.
  unfold renderPlaceholder, bind at 1, get, module_path.
  destruct (config w) as [dirs|]; [|done].
  cbv zeta. set (path := String.append "/" _).
  unfold bind at 1, modify.
  destruct (import_class env path) as [class|]; [|done].
  destruct (render env fuel class (emit (Import path) w)) as [w1 [el|e]]; [|done].
  unfold ret. apply IH.
Qed.
Lemma effect_renderNestedComponents fuel tag attrs kids w :
  effect (renderNestedComponents env (render env fuel)
            (Some (Element tag attrs kids))) w
  = resolved_in_turn env fuel (concat (map placeholders kids)) w.
Proof.
  rewrite <- effect_placeholderLoop. revert w.
  eapply same_effect_trans; [apply same_effect_bind_ret|].
  apply same_effect_resolve_all, Forall_forall. intros n _.
  apply same_effect_resolve.
Qed.

Lemma resolved_in_turn_log fuel names w :
  log w `prefix_of` log (fst (resolved_in_turn env fuel names w)).
Proof.
  revert w. induction names as [|c rest IH]; intros w; [done|].
  cbn [resolved_in_turn]. destruct (module_path w c) as [path|]; [|done].
  assert (H0 : log w `prefix_of` log (emit (Import path) w))
    by (by apply prefix_app_r).
  destruct (import_class env path) as [class|]; [|exact H0].
  pose proof (ev_log _ _ (steps_render env fuel class (emit (Import path) w))) as H1.
  destruct (render env fuel class (emit (Import path) w)) as [w1 [el|e]];
    cbn [fst] in *.
  - etrans; [exact H0|]. etrans; [exact H1|]. apply IH.
  - by etrans.
Qed.

(** What a completed render has done: the two requests of the component,
    its styles, the resolution of the placeholders of its template, and
    the hook last. *)
Lemma render_completed fuel class dirs w0 w1 el :
  config w0 = Some dirs ->
  render env fuel class w0 = (w1, Returns el) ->
  exists fuel' d t css ctag cattrs ckids wn,
    fuel = S fuel' /\
    fetch_text env (file_path d class ".html") = Some t /\
    fetch_text env (file_path d class ".css") = Some css /\
    parseHTML env t = Some (Element ctag cattrs ckids) /\
    resolved_in_turn env fuel' (concat (map placeholders ckids))
      (styled class css (fetched d class w0)) = (wn, None) /\
    w1 = emit (Initialize class) wn.
Proof.
  intros Hc Hrun. destruct fuel as [|fuel']; [discriminate|].
  cbn [render] in Hrun. unfold bind at 1 in Hrun.
  destruct (setup env (render env fuel') class w0) as [wS [el'|e]] eqn:Hs;
    [|discriminate].
  unfold bind, modify, ret in Hrun. injection Hrun as <- <-.
  assert (Hd : directory env w0 = Some dirs) by (unfold directory; by rewrite Hc).
  assert (Hl : loaded env w0 = w0) by (unfold loaded; by rewrite Hc).
  unfold setup, try_catch in Hs. unfold bind at 1 in Hs.
  rewrite (setPaths_loaded env class w0 dirs Hd), Hl in Hs.
  set (d := js_string class (lookup_member dirs class)) in *.
  destruct (falsy (lookup_member dirs class)); [discriminate|].
  unfold bind at 1 in Hs.
  change (String.append d (String.append class ".html"))
    with (file_path d class ".html") in Hs.
  change (String.append d (String.append class ".css"))
    with (file_path d class ".css") in Hs.
  destruct (fetch_text env (file_path d class ".html")) as [t|] eqn:Ht;
    [destruct (fetch_text env (file_path d class ".css")) as [css|] eqn:Hcss|].
  2,3: unfold fetchTemplateAndStyles, try_catch, bind, modify, throw in Hs;
       rewrite Ht, ?Hcss in Hs; discriminate.
  rewrite (fetchTemplateAndStyles_available env _ _ t css _ Ht Hcss) in Hs.
  unfold bind at 1, applyStyles, bind at 1, get in Hs.
  change (emit (Fetch (file_path d class ".css"))
            (emit (Fetch (file_path d class ".html")) w0))
    with (fetched d class w0) in Hs.
  set (ws := styled class css (fetched d class w0)).
  assert (Hst : (if getElementById (fetched d class w0) (String.append class "-styles")
                 then ret tt
                 else modify (set_head (head (fetched d class w0)
                                          ++ [(String.append class "-styles", css)]))
                   : M unit)
                  (fetched d class w0)
                = (ws, Returns tt)).
  { unfold ws, styled, ret, modify. by destruct (getElementById _ _). }
  rewrite Hst in Hs.
  destruct (parseHTML env t) as [[s|ctag cattrs ckids]|] eqn:Hp; try discriminate.
  pose proof (effect_renderNestedComponents fuel' ctag cattrs ckids ws) as He.
  unfold effect in He.
  destruct (renderNestedComponents env (render env fuel')
              (Some (Element ctag cattrs ckids)) ws) as [wn [eln|e]].
  - injection Hs as <- <-.
    exists fuel', d, t, css, ctag, cattrs, ckids, wn. by repeat split.
  - destruct e; discriminate.
Qed.
(** One completed turn of the loop. *)
Lemma turn_completed fuel u path class u1 el :
  is_Some (config u) ->
  render env fuel class (emit (Import path) u) = (u1, Returns el) ->
  exists fuel' d t css ctag cattrs ckids un nested,
    fuel = S fuel' /\
    fetch_text env (file_path d class ".html") = Some t /\
    fetch_text env (file_path d class ".css") = Some css /\
    parseHTML env t = Some (Element ctag cattrs ckids) /\
    resolved_in_turn env fuel' (concat (map placeholders ckids))
      (styled class css (fetched d class (emit (Import path) u)))
    = (un, None) /\
    u1 = emit (Initialize class) un /\
    log u1 = log u ++ [Import path; Fetch (file_path d class ".html");
                       Fetch (file_path d class ".css")]
               ++ nested ++ [Initialize class].
Proof.
  intros [dirs Hc] Hrun.
  destruct (render_completed fuel class dirs (emit (Import path) u) u1 el Hc Hrun)
    as (fuel' & d & t & css & ctag & cattrs & ckids & un
        & -> & Ht & Hcss & Hp & Hin & ->).
  pose proof (resolved_in_turn_log fuel' (concat (map placeholders ckids))
                (styled class css (fetched d class (emit (Import path) u))))
    as [nested Hnested].
  rewrite Hin in Hnested; cbn [fst] in Hnested.
  exists fuel', d, t, css, ctag, cattrs, ckids, un, nested.
  repeat split; try done.
  cbn [log emit]. rewrite Hnested.
  assert (Hlog : log (styled class css (fetched d class (emit (Import path) u)))
                 = log u ++ [Import path; Fetch (file_path d class ".html");
                             Fetch (file_path d class ".css")]).
  { unfold styled. destruct (getElementById _ _); cbn; by rewrite <- !app_assoc. }
  rewrite Hlog. by rewrite <- !app_assoc.
Qed.

Lemma module_path_config u c path : module_path u c = Some path -> is_Some (config u).
Proof. unfold module_path. destruct (config u); [eauto|discriminate]. Qed.
End InTurn.

(** C4: within one render the placeholders of the template are resolved
    one at a time, in document order.  The run over the children of the
    root element does what the design document says of it
    ([resolved_in_turn]): for each name in document order, the module is
    imported and the child is rendered.  A child that completes has,
    between the import of its module and its [initialize] hook, requested
    its template and its styles and had the placeholders of its own
    template resolved in the same way; the next placeholder is begun only
    after that hook, from the world the child has left, so that every
    event of the later siblings comes after it in the log.  A child that
    fails ends the resolution: no later placeholder is begun.  So, when
    the first two placeholders complete, the log of the run shows the
    import of the first, what the first did, its hook, the import of the
    second, what the second did, its hook, and only then the rest. *)
Theorem siblings_resolved_in_document_order env fuel tag attrs kids w :
  let run := renderNestedComponents env (render env fuel)
               (Some (Element tag attrs kids)) in
  effect run w = resolved_in_turn env fuel (concat (map placeholders kids)) w /\
  (forall u c rest path class u1 el,
     module_path u c = Some path ->
     import_class env path = Some class ->
     render env fuel class (emit (Import path) u) = (u1, Returns el) ->
     (exists fuel' d t css ctag cattrs ckids un nested,
        fuel = S fuel' /\
        fetch_text env (file_path d class ".html") = Some t /\
        fetch_text env (file_path d class ".css") = Some css /\
        parseHTML env t = Some (Element ctag cattrs ckids) /\
        resolved_in_turn env fuel' (concat (map placeholders ckids))
          (styled class css (fetched d class (emit (Import path) u)))
        = (un, None) /\
        u1 = emit (Initialize class) un /\
        log u1 = log u ++ [Import path; Fetch (file_path d class ".html");
                           Fetch (file_path d class ".css")]
                   ++ nested ++ [Initialize class]) /\
     resolved_in_turn env fuel (c :: rest) u = resolved_in_turn env fuel rest u1 /\
     log u1 `prefix_of` log (fst (resolved_in_turn env fuel rest u1))) /\
  (forall u c rest path class u1 e,
     module_path u c = Some path ->
     import_class env path = Some class ->
     render env fuel class (emit (Import path) u) = (u1, Throws e) ->
     resolved_in_turn env fuel (c :: rest) u = (u1, Some e)) /\
  (forall c1 c2 rest p1 class1 u1 el1 p2 class2 u2 el2,
     concat (map placeholders kids) = c1 :: c2 :: rest ->
     module_path w c1 = Some p1 ->
     import_class env p1 = Some class1 ->
     render env fuel class1 (emit (Import p1) w) = (u1, Returns el1) ->
     module_path u1 c2 = Some p2 ->
     import_class env p2 = Some class2 ->
     render env fuel class2 (emit (Import p2) u1) = (u2, Returns el2) ->
     exists did1 did2 later,
       log (fst (run w))
       = log w ++ Import p1 :: did1 ++ Initialize class1
                 :: Import p2 :: did2 ++ Initialize class2 :: later).
Proof.
  cbv zeta. split; [apply effect_renderNestedComponents|]. split; [|split].
  - intros u c rest path class u1 el Hpath Hclass Hrun.
    split; [|split].
    + apply (turn_completed env fuel u path class u1 el);
        [by eapply module_path_config|done].
    + cbn [resolved_in_turn]. by rewrite Hpath, Hclass, Hrun.
    + apply resolved_in_turn_log.
  - intros u c rest path class u1 e Hpath Hclass Hrun.
    cbn [resolved_in_turn]. by rewrite Hpath, Hclass, Hrun.
  - intros c1 c2 rest p1 class1 u1 el1 p2 class2 u2 el2
           Hnames Hp1 Hc1 Hr1 Hp2 Hc2 Hr2.
    assert (Hfst : fst (renderNestedComponents env (render env fuel)
                          (Some (Element tag attrs kids)) w)
                   = fst (resolved_in_turn env fuel rest u2)).
    { pose proof (effect_renderNestedComponents env fuel tag attrs kids w) as He.
      rewrite Hnames in He. cbn [resolved_in_turn] in He.
      rewrite Hp1, Hc1, Hr1, Hp2, Hc2, Hr2 in He. rewrite <- He.
      unfold effect. by destruct (renderNestedComponents _ _ _ w) as [w' [el|e]]. }
    destruct (turn_completed env fuel w p1 class1 u1 el1
                (module_path_config w c1 p1 Hp1) Hr1)
      as (f1 & d1 & t1 & css1 & tg1 & at1 & k1 & n1 & did1 & _ & _ & _ & _ & _ & _ & Hl1).
    destruct (turn_completed env fuel u1 p2 class2 u2 el2
                (module_path_config u1 c2 p2 Hp2) Hr2)
      as (f2 & d2 & t2 & css2 & tg2 & at2 & k2 & n2 & did2 & _ & _ & _ & _ & _ & _ & Hl2).
    destruct (resolved_in_turn_log env fuel rest u2) as [later Hlater].
    exists ([Fetch (file_path d1 class1 ".html"); Fetch (file_path d1 class1 ".css")]
              ++ did1),
           ([Fetch (file_path d2 class2 ".html"); Fetch (file_path d2 class2 ".css")]
              ++ did2), later.
    rewrite Hfst, Hlater, Hl2, Hl1. cbn [app].
    repeat (rewrite <- !app_assoc; cbn [app]). reflexivity.
Qed.

Lemma siblings_resolved_in_document_order_witness :
  exists did1 did2 later,
    log (fst (renderNestedComponents site (render site 1)
                (Some (Element "div" []
                         [Element "span" [("data-component", "Child")] [];
                          Element "i" [("data-component", "Child")] []]))
                (loaded site fresh_page)))
    = log (loaded site fresh_page)
        ++ Import "/components/Child/Child.js" :: did1 ++ Initialize "Child"
        :: Import "/components/Child/Child.js" :: did2 ++ Initialize "Child"
        :: later.
Proof.
  destruct (siblings_resolved_in_document_order site 1 "div" []
              [Element "span" [("data-component", "Child")] [];
               Element "i" [("data-component", "Child")] []]
              (loaded site fresh_page))
    as (_ & _ & _ & H).
  set (u1 := fst (render site 1 "Child"
                    (emit (Import "/components/Child/Child.js")
                       (loaded site fresh_page)))).
  set (u2 := fst (render site 1 "Child"
                    (emit (Import "/components/Child/Child.js") u1))).
  apply (H "Child" "Child" [] "/components/Child/Child.js" "Child" u1
           (Element "p" [] [Text "hi"])
           "/components/Child/Child.js" "Child" u2
           (Element "p" [] [Text "hi"])).
  - reflexivity.
  - reflexivity.
  - reflexivity.
  - by vm_compute.
  - reflexivity.
  - reflexivity.
  - by vm_compute.
Defined.

End ResolutionOrder.
